(** * AquaponicsIOT: the telemetry server and the sensor simulator

    A shallow embedding of [api_server.py] (diagnosis rules, alert
    evaluation, the bounded telemetry store and its lock) and of
    [rpi_sensor_simulator.py] (pump / light / failure commands and the
    generation of one reading per tick), followed by the properties of the
    specification that are settled on it.

    Conventions.
    - A JSON payload is a [gmap string value]; [dict.get(k, d)] is
      [dict_get].
    - Python numbers are modelled by the rationals they denote (every finite
      double is a rational), plus the three special doubles that
      [json.loads] accepts.  The rounding error of each floating-point
      operation is not modelled; [round(x, n)] is the exact decimal rounding
      (half to even) of the rational.
    - A raised exception is [None] in the option monad.
    - The random generator, the wall clock and [math.sin] are an explicit
      environment read through counters threaded by a small state monad. *)

From Stdlib Require Import QArith Qround Lqa Sorted.
From stdpp Require Import gmap strings list fin_maps.

Local Open Scope string_scope.
Local Open Scope list_scope.
Local Open Scope nat_scope.

(** ** Python values *)

Inductive number :=
  | Finite (q : Q)
  | PosInf
  | NegInf
  | NaN.

(** What [json.loads] can put under a key.  [VObj] stands for a nested list
    or object: the code modelled here can observe its type and whether it is
    empty, nothing else. *)
Inductive value :=
  | VNone
  | VBool (b : bool)
  | VNum (n : number)
  | VStr (s : string)
  | VObj (nonempty : bool).

Definition Qltb (x y : Q) : bool := negb (Qle_bool y x).

(** [a < b] on Python numbers (IEEE order: every comparison with NaN is
    false). *)
Definition number_lt (a b : number) : bool :=
  match a, b with
  | NaN, _ | _, NaN => false
  | Finite x, Finite y => Qltb x y
  | NegInf, NegInf => false
  | NegInf, _ => true
  | Finite _, PosInf => true
  | Finite _, NegInf => false
  | PosInf, _ => false
  end.

(** The operand of an ordering comparison with a float: [bool] is a subtype
    of [int]; every other type raises [TypeError]. *)
Definition as_number (v : value) : option number :=
  match v with
  | VNum n => Some n
  | VBool b => Some (Finite (if b then 1 else 0))
  | VNone | VStr _ | VObj _ => None
  end.

Definition py_lt (v : value) (bound : Q) : option bool :=
  n ← as_number v; Some (number_lt n (Finite bound)).

Definition py_gt (v : value) (bound : Q) : option bool :=
  n ← as_number v; Some (number_lt (Finite bound) n).

(** [v == "s"] never raises. *)
Definition is_str (s : string) (v : value) : bool :=
  match v with
  | VStr s' => String.eqb s' s
  | _ => false
  end.

Abbreviation Reading := (gmap string value).

Definition dict_get (d : Reading) (key : string) (dflt : value) : value :=
  default dflt (d !! key).

(** A Python [int]. *)
Definition int (z : Z) : value := VNum (Finite (inject_Z z)).

(** An MQTT message.  [decoded] is [json.loads(msg.payload.decode())] when
    that is a JSON object, and [None] when decoding raises or yields another
    JSON value (on which [.get] raises): both end in the handler's
    [except]. *)
Record Message := {
  topic : string;
  decoded : option Reading
}.

(** The control payloads that the server publishes and the simulator
    receives. *)
Definition pump_command (state : string) : Message :=
  {| topic := "aquaponics/control/pump";
     decoded := Some (<["action" := VStr "pump"]> (<["state" := VStr state]> ∅)) |}.

Definition light_command (state : string) : Message :=
  {| topic := "aquaponics/control/light";
     decoded := Some (<["action" := VStr "light"]> (<["state" := VStr state]> ∅)) |}.

Definition simulate_failure_command (enable : bool) : Message :=
  {| topic := "aquaponics/control/simulate";
     decoded := Some (<["action" := VStr "simulate_failure"]>
                        (<["enable" := VBool enable]> ∅)) |}.

(** ** Python arithmetic used by the simulator *)

(** The nearest integer, ties to the even one. *)
Definition round_half_even (x : Q) : Z :=
  let f := Qfloor x in
  match (x - inject_Z f ?= 1 # 2)%Q with
  | Lt => f
  | Gt => (f + 1)%Z
  | Eq => if Z.even f then f else (f + 1)%Z
  end.

Definition scale (ndigits : nat) : Q := inject_Z (10 ^ Z.of_nat ndigits).

(** [round(x, ndigits)]. *)
Definition py_round (x : Q) (ndigits : nat) : Q :=
  (inject_Z (round_half_even (x * scale ndigits)) / scale ndigits)%Q.

(** [max(0, x)]: the first argument is kept unless the second is greater. *)
Definition py_max0 (x : Q) : Q := if Qltb 0 x then x else 0%Q.

(** The values with [n] decimals: [round(x, n)] lands on them and leaves
    them unchanged. *)
Definition on_grid (n : nat) (x : Q) : Prop := ∃ k : Z, (x == inject_Z k / scale n)%Q.

(** ** api_server.py *)

Module ApiServer.

(** *** Thresholds and diagnosis *)

Record Thresholds := {
  do_low : Q;
  ammonia_high : Q;
  water_level_low : Q;
  temp_high : Q;
  ph_low : Q
}.

Definition THRESHOLDS : Thresholds := {|
  do_low := 5;
  ammonia_high := 1 # 2;
  water_level_low := 80;
  temp_high := 26;
  ph_low := 6
|}.

(** The five threshold conditions, each as [diagnose] and [get_alerts]
    evaluate it. *)
Definition low_do (T : Thresholds) (r : Reading) : option bool :=
  py_lt (dict_get r "dissolved_oxygen_mgL" (int 10)) (do_low T).
Definition high_ammonia (T : Thresholds) (r : Reading) : option bool :=
  py_gt (dict_get r "ammonia_mgL" (int 0)) (ammonia_high T).
Definition low_water_level (T : Thresholds) (r : Reading) : option bool :=
  py_lt (dict_get r "water_level_percent" (int 100)) (water_level_low T).
Definition high_temp (T : Thresholds) (r : Reading) : option bool :=
  py_gt (dict_get r "water_temp_C" (int 20)) (temp_high T).
Definition low_ph (T : Thresholds) (r : Reading) : option bool :=
  py_lt (dict_get r "pH" (int 7)) (ph_low T).

(** The if / elif chain of [diagnose], on the five flags. *)
Definition diagnose_label (low_do high_ammonia low_water_level high_temp low_ph : bool)
  : string :=
  if low_water_level && low_do then "Pump failure suspected"
  else if high_ammonia && low_do then "Overfeeding / biofilter stress"
  else if high_temp && low_do then "Thermal oxygen stress"
  else if low_water_level then "Leak or evaporation"
  else if low_ph then "pH too low - add buffer"
  else "Normal operation".

(** [diagnose(reading)]: the module-level [THRESHOLDS] is an explicit
    argument.  All five comparisons run before the chain, so a value of the
    wrong type under any of the five keys raises. *)
Definition diagnose (T : Thresholds) (reading : Reading) : option string :=
  a ← low_do T reading;
  b ← high_ammonia T reading;
  c ← low_water_level T reading;
  d ← high_temp T reading;
  e ← low_ph T reading;
  Some (diagnose_label a b c d e).

(** *** Alerts *)

(** An f-string: literal text and formatted values, left unrendered. *)
Inductive piece :=
  | Text (s : string)
  | Shown (v : value).

Record Alert := {
  alert_type : string;
  sensor : string;
  message : list piece
}.

(** [r[key]] raises [KeyError] when the key is absent. *)
Definition subscript (r : Reading) (key : string) : option value := r !! key.

(** One [if cond: alerts.append({...})] whose message formats [r[key]]. *)
Definition check_sensor (cond : option bool) (r : Reading) (key : string)
    (mk : value → Alert) (alerts : list Alert) : option (list Alert) :=
  c ← cond;
  if c : bool then v ← subscript r key; Some (alerts ++ [mk v]) else Some alerts.

Definition pump_alert : Alert :=
  {| alert_type := "danger"; sensor := "pump";
     message := [Text "Pump failure detected!"] |}.

(** The body of [get_alerts] below its emptiness test. *)
Definition evaluate_alerts (T : Thresholds) (r : Reading) : option (list Alert) :=
  alerts ← check_sensor (low_do T r) r "dissolved_oxygen_mgL"
    (λ v, {| alert_type := "warning"; sensor := "dissolved_oxygen";
             message := [Text "Low DO: "; Shown v; Text " mg/L"] |}) [];
  alerts ← check_sensor (high_ammonia T r) r "ammonia_mgL"
    (λ v, {| alert_type := "danger"; sensor := "ammonia";
             message := [Text "High ammonia: "; Shown v; Text " mg/L"] |}) alerts;
  alerts ← check_sensor (low_water_level T r) r "water_level_percent"
    (λ v, {| alert_type := "danger"; sensor := "water_level";
             message := [Text "Low water: "; Shown v; Text "%"] |}) alerts;
  alerts ← check_sensor (high_temp T r) r "water_temp_C"
    (λ v, {| alert_type := "warning"; sensor := "temperature";
             message := [Text "High temp: "; Shown v; Text "°C"] |}) alerts;
  alerts ← check_sensor (low_ph T r) r "pH"
    (λ v, {| alert_type := "warning"; sensor := "pH";
             message := [Text "Low pH: "; Shown v] |}) alerts;
  Some (if is_str "FAILURE" (dict_get r "pump_status" VNone)
        then alerts ++ [pump_alert]
        else alerts).

(** *** The telemetry store *)

(** [collections.deque(maxlen=n)]: [append] adds on the right and, when the
    length then exceeds [maxlen], pops on the left. *)
Record deque (A : Type) := Deque {
  maxlen : nat;
  items : list A
}.
Arguments Deque {A} _ _.
Arguments maxlen {A} _.
Arguments items {A} _.

Definition deque_append {A} (x : A) (d : deque A) : deque A :=
  let l := items d ++ [x] in
  Deque (maxlen d) (if (maxlen d <? length l)%nat then drop 1 l else l).

Definition MAX_READINGS : nat := 500.

(** The module-level [latest_reading] and [sensor_readings]; the lock that
    guards them is in the interleaving model further down. *)
Record Store := {
  latest_reading : Reading;
  sensor_readings : deque Reading
}.

Definition initial_store : Store := {|
  latest_reading := ∅;
  sensor_readings := Deque MAX_READINGS []
|}.

(** The two assignments inside [with lock:] in [on_message]. *)
Definition set_latest (payload : Reading) (st : Store) : Store :=
  {| latest_reading := payload; sensor_readings := sensor_readings st |}.

Definition append_reading (payload : Reading) (st : Store) : Store :=
  {| latest_reading := latest_reading st;
     sensor_readings := deque_append payload (sensor_readings st) |}.

Definition store_reading (payload : Reading) (st : Store) : Store :=
  append_reading payload (set_latest payload st).

(** [payload["diagnosis"] = diagnose(payload)]: the reading as it is
    stored, or [None] when the handler drops the message. *)
Definition enrich (msg : Message) : option Reading :=
  if String.eqb (topic msg) "aquaponics/sensors/all" then
    payload ← decoded msg;
    label ← diagnose THRESHOLDS payload;
    Some (<["diagnosis" := VStr label]> payload)
  else None.

(** [on_message]: the effect on the store (the CSV line and the console
    output come after the lock is released and touch neither field). *)
Definition on_message (msg : Message) (st : Store) : Store :=
  match enrich msg with
  | Some payload => store_reading payload st
  | None => st
  end.

(** Truthiness of a dict. *)
Definition truthy (r : Reading) : bool := negb (Nat.eqb (size r) 0).

Definition get_latest (st : Store) : Reading + string :=
  if truthy (latest_reading st) then inl (latest_reading st)
  else inr "No data yet. Is the Raspberry Pi publishing?".

(** [l[start:]] with Python's treatment of a negative or too large start. *)
Definition slice_from {A} (start : Z) (l : list A) : list A :=
  let n := Z.of_nat (length l) in
  let s := if (start <? 0)%Z then Z.max 0 (start + n) else Z.min start n in
  drop (Z.to_nat s) l.

Record DataResponse := {
  count : nat;
  readings : list Reading
}.

(** [get_data(limit)]; [list(sensor_readings)] is a fresh list built under
    the lock, here the value [items]. *)
Definition get_data (limit : Z) (st : Store) : DataResponse :=
  let readings_list := items (sensor_readings st) in
  let data :=
    if (limit <? Z.of_nat (length readings_list))%Z
    then slice_from (- limit) readings_list
    else readings_list in
  {| count := length data; readings := data |}.

(** The part of [get_status] read under the lock. *)
Definition get_status (st : Store) : nat * bool * option value :=
  let reading_count := length (items (sensor_readings st)) in
  let has_data := negb (Nat.eqb reading_count 0) in
  let last_time :=
    if truthy (latest_reading st) then latest_reading st !! "timestamp" else None in
  (reading_count, has_data, last_time).

Inductive AlertsResponse :=
  | NoData
  | Alerts (alerts : list Alert) (alert_count : nat) (diagnosis : value).

Definition get_alerts (st : Store) : option AlertsResponse :=
  if truthy (latest_reading st) then
    let r := latest_reading st in
    alerts ← evaluate_alerts THRESHOLDS r;
    Some (Alerts alerts (length alerts) (dict_get r "diagnosis" (VStr "Unknown")))
  else Some NoData.

(** *** Control endpoints

    [control_pump], [control_light] and [simulate_failure]: the success flag
    and the message published, if the client is connected. *)
Definition publish_if (connected : bool) (msg : Message) : bool * option Message :=
  if connected then (true, Some msg) else (false, None).

Definition control_pump (connected : bool) (state : string) :=
  publish_if connected (pump_command state).
Definition control_light (connected : bool) (state : string) :=
  publish_if connected (light_command state).
Definition simulate_failure (connected : bool) (enable : bool) :=
  publish_if connected (simulate_failure_command enable).

(** *** The priority list of the specification

    The six rules as the specification lists them, to be compared with the
    if / elif chain of [diagnose]. *)
Definition priority_rules (low_do high_ammonia low_water_level high_temp low_ph : bool)
  : list (bool * string) :=
  [ (low_water_level && low_do, "Pump failure suspected");
    (high_ammonia && low_do, "Overfeeding / biofilter stress");
    (high_temp && low_do, "Thermal oxygen stress");
    (low_water_level, "Leak or evaporation");
    (low_ph, "pH too low - add buffer");
    (true, "Normal operation") ].

Fixpoint first_match (rules : list (bool * string)) : option string :=
  match rules with
  | [] => None
  | (cond, label) :: rules => if cond then Some label else first_match rules
  end.

(** The keys that [diagnose] and [get_alerts] read. *)
Definition threshold_fields : list string :=
  ["dissolved_oxygen_mgL"; "ammonia_mgL"; "water_level_percent"; "water_temp_C"; "pH"].

(** Every threshold field that is present holds a number. *)
Definition numeric_where_present (r : Reading) : Prop :=
  Forall (λ key, ∀ v, r !! key = Some v → is_Some (as_number v)) threshold_fields.

(** *** Message delivery *)

(** The handler run on the messages in the order the broker delivers
    them. *)
Fixpoint deliver (msgs : list Message) (st : Store) : Store :=
  match msgs with
  | [] => st
  | msg :: msgs => deliver msgs (on_message msg st)
  end.

(** The readings that [deliver] stores, in delivery order. *)
Definition accepted (msgs : list Message) : list Reading := omap enrich msgs.

Definition alerts_of (resp : AlertsResponse) : list Alert :=
  match resp with
  | NoData => []
  | Alerts alerts _ _ => alerts
  end.

(** *** The lock

    The ingestion thread and the request handlers share [latest_reading] and
    [sensor_readings] under the one [threading.Lock].  The interleavings are
    a labelled step relation: the ingestion thread runs the statements of
    its [with lock:] block one at a time, a handler takes the lock, reads
    the pair and releases.  [acquire] is enabled only on a free lock. *)

Inductive owner :=
  | Ingest
  | Serve (handler : nat).

(** Where the ingestion thread stands in [on_message]. *)
Inductive ingest_pc :=
  | Idle
  | Locked (payload : Reading)
  | LatestSet (payload : Reading)
  | Appended (payload : Reading).

Record System := {
  store : Store;
  lock : option owner;
  pc : ingest_pc
}.

Definition initial_system : System :=
  {| store := initial_store; lock := None; pc := Idle |}.

Inductive event :=
  | Silent
  | Dropped (msg : Message)
  | Ingested (payload : Reading)
  | Observed (handler : nat) (latest : Reading) (history : list Reading).

Inductive step : System → event → System → Prop :=
  | ingest_drop s msg :
      pc s = Idle → enrich msg = None →
      step s (Dropped msg) s
  | ingest_acquire s msg payload :
      pc s = Idle → enrich msg = Some payload → lock s = None →
      step s Silent {| store := store s; lock := Some Ingest; pc := Locked payload |}
  | ingest_set_latest s payload :
      pc s = Locked payload →
      step s Silent
        {| store := set_latest payload (store s); lock := lock s; pc := LatestSet payload |}
  | ingest_append s payload :
      pc s = LatestSet payload →
      step s Silent
        {| store := append_reading payload (store s); lock := lock s;
           pc := Appended payload |}
  | ingest_release s payload :
      pc s = Appended payload →
      step s (Ingested payload) {| store := store s; lock := None; pc := Idle |}
  | serve_acquire s n :
      lock s = None →
      step s Silent {| store := store s; lock := Some (Serve n); pc := pc s |}
  | serve_read s n :
      lock s = Some (Serve n) →
      step s (Observed n (latest_reading (store s)) (items (sensor_readings (store s)))) s
  | serve_release s n :
      lock s = Some (Serve n) →
      step s Silent {| store := store s; lock := None; pc := pc s |}.

Inductive reachable : System → Prop :=
  | reachable_initial : reachable initial_system
  | reachable_step s e s' : reachable s → step s e s' → reachable s'.

(** [latest_reading] is the newest entry of the history (or both are still
    empty). *)
Definition pair_consistent (latest : Reading) (history : list Reading) : Prop :=
  last history = Some latest ∨ (history = [] ∧ latest = ∅).

(** What holds of the shared pair at each point of the ingestion thread:
    outside its critical section the pair is consistent and the lock is not
    its own; inside, it holds the lock. *)
Definition lock_invariant (s : System) : Prop :=
  let history := items (sensor_readings (store s)) in
  0 < maxlen (sensor_readings (store s))
  ∧ length history ≤ maxlen (sensor_readings (store s))
  ∧ match pc s with
    | Idle =>
        lock s ≠ Some Ingest ∧ pair_consistent (latest_reading (store s)) history
    | Locked payload =>
        lock s = Some Ingest ∧ truthy payload = true
        ∧ pair_consistent (latest_reading (store s)) history
    | LatestSet payload =>
        lock s = Some Ingest ∧ truthy payload = true
        ∧ latest_reading (store s) = payload
    | Appended payload =>
        lock s = Some Ingest ∧ truthy payload = true
        ∧ latest_reading (store s) = payload ∧ last history = Some payload
    end.

(** One step of some thread. *)
Definition moves (s s' : System) : Prop := ∃ e, step s e s'.

(** *** The CSV log

    [sensor_readings.csv] is [None] while it does not exist, else its rows,
    header included.  A cell holds the value that [csv] would print.  An
    [OSError] inside [log_to_csv] is the flag [io_ok = false]: the handler
    catches it and writes nothing. *)
Definition CSV_COLUMNS : list string :=
  ["timestamp"; "water_temp_C"; "air_temp_C"; "pH"; "ammonia_mgL";
   "dissolved_oxygen_mgL"; "ec_uScm"; "water_level_percent";
   "humidity_percent"; "light_lux"; "pump_status"; "diagnosis"].

Definition csv_header : list value := VStr <$> CSV_COLUMNS.

Definition init_csv (file : option (list (list value))) : option (list (list value)) :=
  match file with
  | None => Some [csv_header]
  | Some rows => Some rows
  end.

(** [{col: reading.get(col, '') for col in CSV_COLUMNS}], in column
    order. *)
Definition csv_row (reading : Reading) : list value :=
  (λ col, dict_get reading col (VStr "")) <$> CSV_COLUMNS.

(** Opening with mode ['a'] creates a missing file. *)
Definition log_to_csv (io_ok : bool) (reading : Reading)
    (file : option (list (list value))) : option (list (list value)) :=
  if io_ok then Some (default [] file ++ [csv_row reading]) else file.

(** [on_message] with its effect on the log: the row is written after the
    lock is released, for the payload that was stored. *)
Definition on_message_logged (io_ok : bool) (msg : Message)
    (state : Store * option (list (list value))) : Store * option (list (list value)) :=
  match enrich msg with
  | Some payload => (store_reading payload state.1, log_to_csv io_ok payload state.2)
  | None => state
  end.

(** The payloads whose row reaches the file: accepted, and written while
    the disk cooperates. *)
Definition logged (msgs : list (Message * bool)) : list Reading :=
  omap (λ m : Message * bool, if m.2 then enrich m.1 else None) msgs.

Fixpoint deliver_logged (msgs : list (Message * bool))
    (state : Store * option (list (list value))) : Store * option (list (list value)) :=
  match msgs with
  | [] => state
  | (msg, io_ok) :: msgs => deliver_logged msgs (on_message_logged io_ok msg state)
  end.

(** The six checks of [get_alerts] in the order it runs them, each with the
    sensor name its alert carries. *)
Definition alert_sensors (low_do high_ammonia low_water_level high_temp low_ph failed : bool)
  : list string :=
  (if low_do then ["dissolved_oxygen"] else [])
  ++ (if high_ammonia then ["ammonia"] else [])
  ++ (if low_water_level then ["water_level"] else [])
  ++ (if high_temp then ["temperature"] else [])
  ++ (if low_ph then ["pH"] else [])
  ++ (if failed then ["pump"] else []).

End ApiServer.

(** ** rpi_sensor_simulator.py *)

Module Simulator.

(** The attributes of [AquaponicsSensorSimulator] ([start_time] is never
    read).  [pump_failure] holds the truth value of what was stored: the
    attribute is only ever tested. *)
Record Sim := {
  reading_count : Z;
  ph_drift : Q;
  ec_drift : Q;
  pump_on : bool;
  light_on : bool;
  pump_failure : bool;
  manual_light : bool
}.

(** [__init__]. *)
Definition init : Sim := {|
  reading_count := 0;
  ph_drift := 0;
  ec_drift := 0;
  pump_on := true;
  light_on := true;
  pump_failure := false;
  manual_light := false
|}.

Definition with_pump_on (b : bool) (s : Sim) : Sim :=
  {| reading_count := reading_count s; ph_drift := ph_drift s; ec_drift := ec_drift s;
     pump_on := b; light_on := light_on s; pump_failure := pump_failure s;
     manual_light := manual_light s |}.

Definition with_light_on (b : bool) (s : Sim) : Sim :=
  {| reading_count := reading_count s; ph_drift := ph_drift s; ec_drift := ec_drift s;
     pump_on := pump_on s; light_on := b; pump_failure := pump_failure s;
     manual_light := manual_light s |}.

Definition with_pump_failure (b : bool) (s : Sim) : Sim :=
  {| reading_count := reading_count s; ph_drift := ph_drift s; ec_drift := ec_drift s;
     pump_on := pump_on s; light_on := light_on s; pump_failure := b;
     manual_light := manual_light s |}.

Definition with_manual_light (b : bool) (s : Sim) : Sim :=
  {| reading_count := reading_count s; ph_drift := ph_drift s; ec_drift := ec_drift s;
     pump_on := pump_on s; light_on := light_on s; pump_failure := pump_failure s;
     manual_light := b |}.

(** *** Control commands *)

Definition set_pump (state : value) (s : Sim) : Sim :=
  if is_str "toggle" state then with_pump_on (negb (pump_on s)) s
  else if is_str "on" state then with_pump_on true s
  else if is_str "off" state then with_pump_on false s
  else s.

Definition set_light (state : value) (s : Sim) : Sim :=
  let s := with_manual_light true s in
  if is_str "toggle" state then with_light_on (negb (light_on s)) s
  else if is_str "on" state then with_light_on true s
  else if is_str "off" state then with_light_on false s
  else if is_str "auto" state then with_manual_light false s
  else s.

Definition set_failure_simulation (enable : bool) (s : Sim) : Sim :=
  with_pump_failure enable s.

(** Truth value of a Python value. *)
Definition truth (v : value) : bool :=
  match v with
  | VNone => false
  | VBool b => b
  | VNum (Finite q) => negb (Qeq_bool q 0)
  | VNum _ => true
  | VStr s => negb (String.eqb s "")
  | VObj nonempty => nonempty
  end.

(** The state strings each setter acts on. *)
Definition pump_states : list string := ["toggle"; "on"; "off"].
Definition light_states : list string := ["toggle"; "on"; "off"; "auto"].

Definition recognized (states : list string) (state : value) : bool :=
  existsb (λ known, is_str known state) states.

(** [on_message]: dispatch on the topic; a payload that is not a JSON
    object raises inside the [try] and changes nothing. *)
Definition on_message (msg : Message) (s : Sim) : Sim :=
  match decoded msg with
  | None => s
  | Some payload =>
      if String.eqb (topic msg) "aquaponics/control/pump" then
        set_pump (dict_get payload "state" (VStr "toggle")) s
      else if String.eqb (topic msg) "aquaponics/control/light" then
        set_light (dict_get payload "state" (VStr "toggle")) s
      else if String.eqb (topic msg) "aquaponics/control/simulate" then
        set_failure_simulation (truth (dict_get payload "enable" (VBool true))) s
      else s
  end.

(** *** The environment of one run

    [gauss_draw k] is the k-th standard normal deviate handed out by
    [random.gauss], [clock_hour k] and [clock_iso k] are what the k-th
    [datetime.now()] shows, and [sin24 h] is
    [math.sin(2 * math.pi * h / 24)]. *)
Record Env := {
  gauss_draw : nat → Q;
  clock_hour : nat → Z;
  clock_iso : nat → string;
  sin24 : Z → Q
}.

(** What the standard library guarantees of an environment.
    [random.gauss(mu, sigma)] returns [mu + z * sigma] with
    [z = cos(2 pi u) * sqrt(-2 log(1 - v))] for [u], [v] drawn by
    [random()], a multiple of 2^-53 below 1: [|z|] is at most
    [sqrt(106 log 2)], below 8.58.  [math.sin] stays within [-1, 1]. *)
Definition GAUSS_SIGMAS : Q := 8.58.

Definition receivable (E : Env) : Prop :=
  (∀ k, - GAUSS_SIGMAS <= gauss_draw E k <= GAUSS_SIGMAS)%Q
  ∧ (∀ h, -1 <= sin24 E h <= 1)%Q.

Record World := {
  sim : Sim;
  draws : nat;
  ticks : nat
}.

Definition M (A : Type) : Type := World → A * World.

#[local] Instance M_ret : MRet M := λ A a w, (a, w).
#[local] Instance M_bind : MBind M := λ A B k m w, let (a, w') := m w in k a w'.

(** A change of the simulator's attributes that uses neither the random
    generator nor the clock. *)
Definition apply_to_sim (f : Sim → Sim) (w : World) : World :=
  {| sim := f (sim w); draws := draws w; ticks := ticks w |}.

Definition self : M Sim := λ w, (sim w, w).
Definition update (f : Sim → Sim) : M unit := λ w, (tt, apply_to_sim f w).

Record GenReading := {
  timestamp : string;
  water_temp_C : Q;
  air_temp_C : Q;
  pH : Q;
  ammonia_mgL : Q;
  dissolved_oxygen_mgL : Q;
  ec_uScm : Q;
  water_level_percent : Q;
  humidity_percent : Q;
  light_lux : Q;
  pump_status : string;
  light_status : string;
  reading_id : Z
}.

Section Generation.
Variable E : Env.

(** [random.gauss(mu, sigma)]. *)
Definition gauss (mu sigma : Q) : M Q :=
  λ w, ((mu + gauss_draw E (draws w) * sigma)%Q,
        {| sim := sim w; draws := S (draws w); ticks := ticks w |}).

Definition get_hour_of_day : M Z :=
  λ w, (clock_hour E (ticks w),
        {| sim := sim w; draws := draws w; ticks := S (ticks w) |}).

Definition now_isoformat : M string :=
  λ w, (clock_iso E (ticks w),
        {| sim := sim w; draws := draws w; ticks := S (ticks w) |}).

Definition daily_cycle (mean amplitude noise_std : Q) : M Q :=
  hour ← get_hour_of_day;
  let value := (mean + amplitude * sin24 E hour)%Q in
  noise ← gauss 0 noise_std;
  mret (py_round (value + noise) 2).

(** [get_readings], one statement per line of the source. *)
Definition get_readings : M GenReading :=
  update (λ s, {| reading_count := reading_count s + 1; ph_drift := ph_drift s;
                  ec_drift := ec_drift s; pump_on := pump_on s; light_on := light_on s;
                  pump_failure := pump_failure s; manual_light := manual_light s |});;
  update (λ s, {| reading_count := reading_count s; ph_drift := (ph_drift s - 0.0001)%Q;
                  ec_drift := ec_drift s; pump_on := pump_on s; light_on := light_on s;
                  pump_failure := pump_failure s; manual_light := manual_light s |});;
  g ← gauss 0 0.5;
  update (λ s, {| reading_count := reading_count s; ph_drift := ph_drift s;
                  ec_drift := (ec_drift s + g)%Q; pump_on := pump_on s;
                  light_on := light_on s; pump_failure := pump_failure s;
                  manual_light := manual_light s |});;
  water_temp ← daily_cycle 23.5 1.5 0.2;
  air_temp ← daily_cycle 22.0 2.0 0.3;
  s ← self;
  g ← gauss 0 0.05;
  let ph := py_round (6.9 + ph_drift s + g) 2 in
  g ← gauss 0.15 0.05;
  let ammonia := py_round (py_max0 g) 3 in
  dissolved_oxygen ← daily_cycle 6.5 0.6 0.15;
  let ec := py_round (900 + ec_drift s) 1 in
  g ← gauss 0 2;
  let water_level := py_round (95 + g) 1 in
  humidity ← daily_cycle 60 10 2;
  hour ← get_hour_of_day;
  let light :=
    if manual_light s then (if light_on s then 20000 else 0)%Q
    else py_max0 (20000 * sin24 E (hour - 6)) in
  g ← gauss 0 500;
  let light := py_round (light + g) 0 in
  let '(pump_status, water_level, dissolved_oxygen) :=
    if pump_failure s then ("FAILURE", water_level - 20, dissolved_oxygen - 2)%Q
    else if negb (pump_on s) then ("OFF", water_level - 5, dissolved_oxygen - 1)%Q
    else ("ON", water_level, dissolved_oxygen) in
  now ← now_isoformat;
  mret {| timestamp := now;
         water_temp_C := water_temp;
         air_temp_C := air_temp;
         pH := ph;
         ammonia_mgL := ammonia;
         dissolved_oxygen_mgL := py_round (py_max0 dissolved_oxygen) 2;
         ec_uScm := ec;
         water_level_percent := py_round (py_max0 water_level) 1;
         humidity_percent := py_round humidity 1;
         light_lux := py_max0 light;
         pump_status := pump_status;
         light_status :=
           if (if manual_light s then light_on s else Qltb 0 light) then "ON" else "OFF";
         reading_id := reading_count s |}.

(** What happens to the simulator over its lifetime: control messages from
    the broker and ticks of the publishing loop, in the order they take
    effect. *)
Inductive action :=
  | Control (msg : Message)
  | Tick.

Fixpoint run (acts : list action) (w : World) : list GenReading * World :=
  match acts with
  | [] => ([], w)
  | Control msg :: acts =>
      run acts (apply_to_sim (on_message msg) w)
  | Tick :: acts =>
      let (r, w') := get_readings w in
      let (rs, w'') := run acts w' in
      (r :: rs, w'')
  end.

End Generation.

(** The number of ticks among the actions. *)
Fixpoint ticks_in (acts : list action) : nat :=
  match acts with
  | [] => 0
  | Tick :: acts => S (ticks_in acts)
  | Control _ :: acts => ticks_in acts
  end.

End Simulator.

(** ** From the simulator to the server *)

Module Pipeline.
Import Simulator.

Definition num (q : Q) : value := VNum (Finite q).

(** The dict returned by [get_readings], as the server decodes it:
    [json.loads(json.dumps(readings))] gives back the keys and values of a
    dict of strings and finite numbers. *)
Definition to_payload (r : GenReading) : Reading :=
  list_to_map
    [ ("timestamp", VStr (timestamp r));
      ("water_temp_C", num (water_temp_C r));
      ("air_temp_C", num (air_temp_C r));
      ("pH", num (pH r));
      ("ammonia_mgL", num (ammonia_mgL r));
      ("dissolved_oxygen_mgL", num (dissolved_oxygen_mgL r));
      ("ec_uScm", num (ec_uScm r));
      ("water_level_percent", num (water_level_percent r));
      ("humidity_percent", num (humidity_percent r));
      ("light_lux", num (light_lux r));
      ("pump_status", VStr (pump_status r));
      ("light_status", VStr (light_status r));
      ("reading_id", int (reading_id r)) ].

(** [TOPICS], in the order of the dict literal. *)
Definition TOPICS : list (string * string) :=
  [ ("water_temp", "aquaponics/sensors/water_temp");
    ("air_temp", "aquaponics/sensors/air_temp");
    ("ph", "aquaponics/sensors/ph");
    ("ammonia", "aquaponics/sensors/ammonia");
    ("dissolved_oxygen", "aquaponics/sensors/dissolved_oxygen");
    ("ec", "aquaponics/sensors/ec");
    ("water_level", "aquaponics/sensors/water_level");
    ("humidity", "aquaponics/sensors/humidity");
    ("light", "aquaponics/sensors/light");
    ("all_sensors", "aquaponics/sensors/all") ].

(** The if / elif chain of the publishing loop: the reading's value for a
    sensor name, [None] where the loop says [continue]. *)
Definition sensor_value (sensor : string) (r : GenReading) : option Q :=
  if String.eqb sensor "all_sensors" then None
  else if String.eqb sensor "water_temp" then Some (water_temp_C r)
  else if String.eqb sensor "air_temp" then Some (air_temp_C r)
  else if String.eqb sensor "ph" then Some (pH r)
  else if String.eqb sensor "ammonia" then Some (ammonia_mgL r)
  else if String.eqb sensor "dissolved_oxygen" then Some (dissolved_oxygen_mgL r)
  else if String.eqb sensor "ec" then Some (ec_uScm r)
  else if String.eqb sensor "water_level" then Some (water_level_percent r)
  else if String.eqb sensor "humidity" then Some (humidity_percent r)
  else if String.eqb sensor "light" then Some (light_lux r)
  else None.

Definition sensor_message (r : GenReading) (entry : string * string) : option Message :=
  v ← sensor_value entry.1 r;
  Some {| topic := entry.2;
          decoded := Some (<["value" := num v]> (<["timestamp" := VStr (timestamp r)]> ∅)) |}.

(** What one pass of the [while True] loop of [main] publishes for a
    reading: the per-sensor messages, then the combined one. *)
Definition publish_reading (r : GenReading) : list Message :=
  omap (sensor_message r) TOPICS
  ++ [{| topic := default "" ((list_to_map TOPICS : gmap string string) !! "all_sensors");
         decoded := Some (to_payload r) |}].

(** One pass of the loop: generate, then publish. *)
Definition publish_tick (E : Env) (w : World) : list Message * World :=
  let (r, w') := get_readings E w in (publish_reading r, w').

End Pipeline.

(** ** Sample inputs *)

Module Samples.
Import ApiServer.

(** A reading that trips rule 1 and rule 2 at once. *)
Definition low_water_high_ammonia : Reading :=
  <["water_level_percent" := int 70]>
    (<["dissolved_oxygen_mgL" := int 3]> (<["ammonia_mgL" := int 1]> ∅)).

(** A reading whose only fault is its pH. *)
Definition acidic : Reading := <["pH" := int 5]> ∅.

(** The label of rule 5 as the specification prints it, with a dash that is
    not the hyphen of the source. *)
Definition spec_low_ph_label : string := "pH too low — add buffer".

(** Two stored readings. *)
Definition stored (n : Z) : Reading :=
  <["reading_id" := int n]> (<["diagnosis" := VStr "Normal operation"]> ∅).

Definition two_readings : Store :=
  store_reading (stored 2) (store_reading (stored 1) initial_store).

(** 501 deliveries of one payload on the combined topic. *)
Definition sample_message (n : Z) : Message :=
  {| topic := "aquaponics/sensors/all"; decoded := Some (<["reading_id" := int n]> ∅) |}.

Definition burst : list Message := sample_message <$> seqZ 1 501.

(** The ingestion thread half way through its critical section, and at its
    end. *)
Definition first_payload : Reading :=
  <["diagnosis" := VStr "Normal operation"]> (<["reading_id" := int 1]> ∅).

Definition ingest_locked : System :=
  {| store := initial_store; lock := Some Ingest; pc := Locked first_payload |}.

Definition ingest_latest_set : System :=
  {| store := set_latest first_payload initial_store; lock := Some Ingest;
     pc := LatestSet first_payload |}.

Definition ingest_appended : System :=
  {| store := store_reading first_payload initial_store; lock := Some Ingest;
     pc := Appended first_payload |}.

Definition ingest_released : System :=
  {| store := store_reading first_payload initial_store; lock := None; pc := Idle |}.

(** [math.sin(2 * math.pi * h / 24)] to four decimals. *)
Definition sin24_table (h : Z) : Q :=
  nth (Z.to_nat (h mod 24))
    [0; 0.2588; 0.5; 0.7071; 0.866; 0.9659; 1; 0.9659; 0.866; 0.7071; 0.5; 0.2588;
     0; -0.2588; -0.5; -0.7071; -0.866; -0.9659; -1; -0.9659; -0.866; -0.7071; -0.5;
     -0.2588]%Q 0%Q.

(** Noon, every deviate at the mean. *)
Definition calm : Simulator.Env :=
  {| Simulator.gauss_draw := λ _, 0%Q;
     Simulator.clock_hour := λ _, 12%Z;
     Simulator.clock_iso := λ _, "2024-06-01T12:00:00";
     Simulator.sin24 := sin24_table |}.

Definition fresh : Simulator.World :=
  {| Simulator.sim := Simulator.init; Simulator.draws := 0; Simulator.ticks := 0 |}.

(** Readings that carry no sensor value, only the pump status. *)
Definition pump_only : Reading := <["pump_status" := VStr "ON"]> ∅.
Definition failed_pump_only : Reading := <["pump_status" := VStr "FAILURE"]> ∅.

(** A short life of the simulator. *)
Definition short_run : list Simulator.action :=
  [Simulator.Tick; Simulator.Control (pump_command "toggle"); Simulator.Tick;
   Simulator.Control (simulate_failure_command true); Simulator.Tick].

(** A reading with every threshold field exactly on its bound, and one with
    every threshold field NaN. *)
Definition on_the_thresholds (T : Thresholds) : Reading :=
  list_to_map
    [ ("dissolved_oxygen_mgL", VNum (Finite (do_low T)));
      ("ammonia_mgL", VNum (Finite (ammonia_high T)));
      ("water_level_percent", VNum (Finite (water_level_low T)));
      ("water_temp_C", VNum (Finite (temp_high T)));
      ("pH", VNum (Finite (ph_low T))) ].

Definition all_nan : Reading :=
  list_to_map
    [ ("dissolved_oxygen_mgL", VNum NaN); ("ammonia_mgL", VNum NaN);
      ("water_level_percent", VNum NaN); ("water_temp_C", VNum NaN);
      ("pH", VNum NaN) ].

(** The reading of the specification's alert example. *)
Definition overfed : Reading :=
  list_to_map
    [ ("dissolved_oxygen_mgL", VNum (Finite 4.0)); ("ammonia_mgL", VNum (Finite 0.6));
      ("water_level_percent", int 90); ("water_temp_C", int 24);
      ("pH", VNum (Finite 6.5)); ("pump_status", VStr "ON") ].

(** A combined reading whose pH is a string, and a per-sensor message. *)
Definition ill_typed : Message :=
  {| topic := "aquaponics/sensors/all";
     decoded := Some (<["pH" := VStr "6.8"]> (<["reading_id" := int 7]> ∅)) |}.

Definition per_sensor : Message :=
  {| topic := "aquaponics/sensors/water_temp";
     decoded := Some (<["value" := int 23]> ∅) |}.

(** Deliveries that the disk refuses on the second write. *)
Definition flaky_deliveries : list (Message * bool) :=
  [(sample_message 1, true); (sample_message 2, false); (per_sensor, true);
   (sample_message 3, true)].

(** A handler holding the lock while a reading waits to be ingested. *)
Definition serving : System :=
  {| store := initial_store; lock := Some (Serve 0); pc := Idle |}.

(** A simulator whose pump has not failed, at the start of a tick. *)
Definition healthy_world : Simulator.World :=
  Simulator.apply_to_sim (Simulator.set_failure_simulation false) fresh.

End Samples.

(** * Properties *)

Import ApiServer Samples.

(** ** Comparisons *)

Lemma Qltb_lt (x y : Q) : Qltb x y = true ↔ (x < y)%Q.
Proof.
  unfold Qltb. rewrite negb_true_iff, <- not_true_iff_false, Qle_bool_iff.
  split; [apply Qnot_le_lt | apply Qlt_not_le].
Qed.

Lemma Qltb_ge (x y : Q) : Qltb x y = false ↔ (y <= x)%Q.
Proof. unfold Qltb. rewrite negb_false_iff. apply Qle_bool_iff. Qed.

Lemma dict_get_missing (r : Reading) key dflt :
  r !! key = None → dict_get r key dflt = dflt.
Proof. unfold dict_get. by intros ->. Qed.

Lemma dict_get_present (r : Reading) key dflt v :
  r !! key = Some v → dict_get r key dflt = v.
Proof. unfold dict_get. by intros ->. Qed.

(** ** Diagnosis *)

Section Diagnosis.
Context (T : Thresholds) (r : Reading).

(** Once the five comparisons have a value, [diagnose] is the chain on
    them. *)
Lemma diagnose_flags (ld ha lw ht lp : bool) :
  low_do T r = Some ld → high_ammonia T r = Some ha →
  low_water_level T r = Some lw → high_temp T r = Some ht → low_ph T r = Some lp →
  diagnose T r = Some (diagnose_label ld ha lw ht lp).
Proof. unfold diagnose. by intros -> -> -> -> ->. Qed.

(** The chain is the first match in the priority list. *)
Lemma diagnose_label_first_match (ld ha lw ht lp : bool) :
  first_match (priority_rules ld ha lw ht lp) = Some (diagnose_label ld ha lw ht lp).
Proof. by destruct ld, ha, lw, ht, lp. Qed.

(** A comparison raises only on a value that is not a number. *)
Lemma py_lt_defined v bound : is_Some (as_number v) → is_Some (py_lt v bound).
Proof. intros [n Hn]. unfold py_lt. rewrite Hn. by eexists. Qed.

Lemma py_gt_defined v bound : is_Some (as_number v) → is_Some (py_gt v bound).
Proof. intros [n Hn]. unfold py_gt. rewrite Hn. by eexists. Qed.

Lemma dict_get_numeric key (z : Z) :
  (∀ v, r !! key = Some v → is_Some (as_number v)) →
  is_Some (as_number (dict_get r key (int z))).
Proof.
  intros H. unfold dict_get. destruct (r !! key) as [v|] eqn:Hk; simpl.
  - by apply H.
  - by eexists.
Qed.

Lemma conditions_defined :
  numeric_where_present r →
  is_Some (low_do T r) ∧ is_Some (high_ammonia T r) ∧ is_Some (low_water_level T r)
  ∧ is_Some (high_temp T r) ∧ is_Some (low_ph T r).
Proof.
  unfold numeric_where_present, threshold_fields.
  rewrite !Forall_cons. intros (Hdo & Ham & Hwl & Hwt & Hph & _).
  repeat split;
    first [ apply py_lt_defined | apply py_gt_defined ]; by apply dict_get_numeric.
Qed.

Lemma diagnose_defined : numeric_where_present r → is_Some (diagnose T r).
Proof.
  intros H. destruct (conditions_defined H) as ([a Ha] & [b Hb] & [c Hc] & [d Hd] & [e He]).
  rewrite (diagnose_flags _ _ _ _ _ Ha Hb Hc Hd He). by eexists.
Qed.

End Diagnosis.

(** C3.  On a reading whose five comparisons evaluate (its sensor values are
    numbers), [diagnose] returns one label, the label of the first rule of
    the priority list whose condition holds; when rule 1 (low water level
    and low dissolved oxygen) and rule 2 (high ammonia and low dissolved
    oxygen) both hold, that label is "Pump failure suspected". *)
Theorem diagnose_first_match_wins (T : Thresholds) (r : Reading) (ld ha lw ht lp : bool) :
  low_do T r = Some ld → high_ammonia T r = Some ha →
  low_water_level T r = Some lw → high_temp T r = Some ht → low_ph T r = Some lp →
  diagnose T r = first_match (priority_rules ld ha lw ht lp)
  ∧ (∃ label, diagnose T r = Some label)
  ∧ (lw && ld = true → ha && ld = true → diagnose T r = Some "Pump failure suspected").
Proof.
  intros Hld Hha Hlw Hht Hlp.
  rewrite (diagnose_flags T r _ _ _ _ _ Hld Hha Hlw Hht Hlp).
  split; [by rewrite diagnose_label_first_match|].
  split; [by eexists|].
  intros H1 _. unfold diagnose_label. by rewrite H1.
Qed.

Lemma diagnose_first_match_wins_witness :
  diagnose THRESHOLDS low_water_high_ammonia
    = first_match (priority_rules true true true false false)
  ∧ (∃ label, diagnose THRESHOLDS low_water_high_ammonia = Some label)
  ∧ (true && true = true → true && true = true →
     diagnose THRESHOLDS low_water_high_ammonia = Some "Pump failure suspected").
Proof.
  apply (diagnose_first_match_wins THRESHOLDS low_water_high_ammonia
           true true true false false); reflexivity.
Defined.

(** C9 (as amended).  When the pH is below its bound and no earlier rule
    holds (the water level is not low, and either the dissolved oxygen is
    not low or neither ammonia nor temperature is high), [diagnose] returns
    the label "pH too low - add buffer", written with a hyphen. *)
Theorem diagnose_low_ph (T : Thresholds) (r : Reading) (ld ha ht : bool) :
  low_do T r = Some ld → high_ammonia T r = Some ha →
  low_water_level T r = Some false → high_temp T r = Some ht → low_ph T r = Some true →
  ld = false ∨ (ha = false ∧ ht = false) →
  diagnose T r = Some "pH too low - add buffer".
Proof.
  intros Hld Hha Hlw Hht Hlp Hearlier.
  rewrite (diagnose_flags T r _ _ _ _ _ Hld Hha Hlw Hht Hlp).
  destruct Hearlier as [-> | [-> ->]]; [by destruct ha, ht | by destruct ld].
Qed.

Lemma diagnose_low_ph_witness :
  diagnose THRESHOLDS acidic = Some "pH too low - add buffer".
Proof.
  apply (diagnose_low_ph THRESHOLDS acidic false false false);
    first [ reflexivity | by left ].
Defined.

(** C9 as stated fails: with a low pH and the water level, ammonia and
    temperature conditions all false, the label returned is not the one the
    specification spells. *)
Lemma diagnose_low_ph_label_differs :
  low_ph THRESHOLDS acidic = Some true
  ∧ low_water_level THRESHOLDS acidic = Some false
  ∧ high_ammonia THRESHOLDS acidic = Some false
  ∧ high_temp THRESHOLDS acidic = Some false
  ∧ diagnose THRESHOLDS acidic ≠ Some spec_low_ph_label.
Proof. repeat split; try reflexivity. vm_compute. discriminate. Qed.

(** ** Missing fields *)

Lemma low_do_missing (r : Reading) :
  r !! "dissolved_oxygen_mgL" = None → low_do THRESHOLDS r = Some false.
Proof. intros H. unfold low_do. by rewrite dict_get_missing. Qed.

Lemma high_ammonia_missing (r : Reading) :
  r !! "ammonia_mgL" = None → high_ammonia THRESHOLDS r = Some false.
Proof. intros H. unfold high_ammonia. by rewrite dict_get_missing. Qed.

Lemma low_water_level_missing (r : Reading) :
  r !! "water_level_percent" = None → low_water_level THRESHOLDS r = Some false.
Proof. intros H. unfold low_water_level. by rewrite dict_get_missing. Qed.

Lemma high_temp_missing (r : Reading) :
  r !! "water_temp_C" = None → high_temp THRESHOLDS r = Some false.
Proof. intros H. unfold high_temp. by rewrite dict_get_missing. Qed.

Lemma low_ph_missing (r : Reading) :
  r !! "pH" = None → low_ph THRESHOLDS r = Some false.
Proof. intros H. unfold low_ph. by rewrite dict_get_missing. Qed.

(** A condition that holds was computed from a stored value, so the
    subscript in the alert's message finds its key. *)
Lemma py_lt_true_present (r : Reading) key dflt bound :
  py_lt dflt bound = Some false →
  py_lt (dict_get r key dflt) bound = Some true → is_Some (r !! key).
Proof.
  unfold dict_get. destruct (r !! key); simpl; [by eexists | congruence].
Qed.

Lemma py_gt_true_present (r : Reading) key dflt bound :
  py_gt dflt bound = Some false →
  py_gt (dict_get r key dflt) bound = Some true → is_Some (r !! key).
Proof.
  unfold dict_get. destruct (r !! key); simpl; [by eexists | congruence].
Qed.

Lemma check_sensor_defined (cond : option bool) (r : Reading) key mk alerts :
  is_Some cond → (cond = Some true → is_Some (r !! key)) →
  is_Some (check_sensor cond r key mk alerts).
Proof.
  intros [[] ->] Hkey; simpl; [|by eexists].
  destruct (Hkey eq_refl) as [v Hv]. unfold subscript. rewrite Hv. by eexists.
Qed.

(** [get_alerts] raises neither [TypeError] nor [KeyError] on a reading
    whose present threshold fields are numbers, whichever are missing. *)
Lemma evaluate_alerts_defined (r : Reading) :
  numeric_where_present r → is_Some (evaluate_alerts THRESHOLDS r).
Proof.
  intros H.
  destruct (conditions_defined THRESHOLDS r H) as (Ha & Hb & Hc & Hd & He).
  unfold evaluate_alerts.
  destruct (check_sensor_defined (low_do THRESHOLDS r) r "dissolved_oxygen_mgL"
    (λ v, {| alert_type := "warning"; sensor := "dissolved_oxygen";
             message := [Text "Low DO: "; Shown v; Text " mg/L"] |}) [] Ha)
    as [l1 ->]; [by apply py_lt_true_present|]. simpl.
  destruct (check_sensor_defined (high_ammonia THRESHOLDS r) r "ammonia_mgL"
    (λ v, {| alert_type := "danger"; sensor := "ammonia";
             message := [Text "High ammonia: "; Shown v; Text " mg/L"] |}) l1 Hb)
    as [l2 ->]; [by apply py_gt_true_present|]. simpl.
  destruct (check_sensor_defined (low_water_level THRESHOLDS r) r "water_level_percent"
    (λ v, {| alert_type := "danger"; sensor := "water_level";
             message := [Text "Low water: "; Shown v; Text "%"] |}) l2 Hc)
    as [l3 ->]; [by apply py_lt_true_present|]. simpl.
  destruct (check_sensor_defined (high_temp THRESHOLDS r) r "water_temp_C"
    (λ v, {| alert_type := "warning"; sensor := "temperature";
             message := [Text "High temp: "; Shown v; Text "°C"] |}) l3 Hd)
    as [l4 ->]; [by apply py_gt_true_present|]. simpl.
  destruct (check_sensor_defined (low_ph THRESHOLDS r) r "pH"
    (λ v, {| alert_type := "warning"; sensor := "pH";
             message := [Text "Low pH: "; Shown v] |}) l4 He)
    as [l5 ->]; [by apply py_lt_true_present|]. simpl.
  by eexists.
Qed.

(** With the five threshold fields missing only the pump check can add an
    alert. *)
Lemma evaluate_alerts_thresholds_missing (r : Reading) :
  Forall (λ key, r !! key = None) threshold_fields →
  evaluate_alerts THRESHOLDS r =
    Some (if is_str "FAILURE" (dict_get r "pump_status" VNone)
          then [pump_alert]
          else []).
Proof.
  unfold threshold_fields. rewrite !Forall_cons.
  intros (Hdo & Ham & Hwl & Hwt & Hph & _). unfold evaluate_alerts.
  rewrite (low_do_missing r Hdo), (high_ammonia_missing r Ham),
    (low_water_level_missing r Hwl), (high_temp_missing r Hwt), (low_ph_missing r Hph).
  reflexivity.
Qed.

(** C8 (as amended).  A missing field never triggers its condition: each of
    the five threshold comparisons is false on a reading that lacks its key.
    Missing keys raise nothing: [diagnose] and the alert evaluation return on
    every reading whose present threshold fields are numbers.  A reading
    with all five threshold fields missing is diagnosed "Normal operation"
    and gets no threshold alert: its alert list is empty unless
    [pump_status] is "FAILURE", and then holds the pump alert alone. *)
Theorem missing_fields_are_safe (r : Reading) :
  (r !! "dissolved_oxygen_mgL" = None → low_do THRESHOLDS r = Some false)
  ∧ (r !! "ammonia_mgL" = None → high_ammonia THRESHOLDS r = Some false)
  ∧ (r !! "water_level_percent" = None → low_water_level THRESHOLDS r = Some false)
  ∧ (r !! "water_temp_C" = None → high_temp THRESHOLDS r = Some false)
  ∧ (r !! "pH" = None → low_ph THRESHOLDS r = Some false)
  ∧ (numeric_where_present r →
     is_Some (diagnose THRESHOLDS r) ∧ is_Some (evaluate_alerts THRESHOLDS r))
  ∧ (Forall (λ key, r !! key = None) threshold_fields →
     diagnose THRESHOLDS r = Some "Normal operation"
     ∧ evaluate_alerts THRESHOLDS r =
         Some (if is_str "FAILURE" (dict_get r "pump_status" VNone)
               then [pump_alert] else [])
     ∧ (is_str "FAILURE" (dict_get r "pump_status" VNone) = false →
        ∀ history,
          alerts_of <$> get_alerts {| latest_reading := r; sensor_readings := history |}
          = Some [])).
Proof.
  split; [apply low_do_missing|].
  split; [apply high_ammonia_missing|].
  split; [apply low_water_level_missing|].
  split; [apply high_temp_missing|].
  split; [apply low_ph_missing|].
  split.
  { intros H. split; [by apply diagnose_defined | by apply evaluate_alerts_defined]. }
  intros Hth. pose proof (evaluate_alerts_thresholds_missing r Hth) as Halerts.
  split; [|split; [done|]].
  - revert Hth. unfold threshold_fields. rewrite !Forall_cons.
    intros (Hdo & Ham & Hwl & Hwt & Hph & _).
    by rewrite (diagnose_flags THRESHOLDS r false false false false false)
      by auto using low_do_missing, high_ammonia_missing, low_water_level_missing,
           high_temp_missing, low_ph_missing.
  - intros Hpump history. unfold get_alerts. cbn [latest_reading].
    destruct (truthy r); [|done]. by rewrite Halerts, Hpump.
Qed.

Lemma missing_fields_are_safe_witness :
  low_do THRESHOLDS pump_only = Some false
  ∧ high_ammonia THRESHOLDS pump_only = Some false
  ∧ low_water_level THRESHOLDS pump_only = Some false
  ∧ high_temp THRESHOLDS pump_only = Some false
  ∧ low_ph THRESHOLDS pump_only = Some false
  ∧ is_Some (diagnose THRESHOLDS pump_only)
  ∧ diagnose THRESHOLDS pump_only = Some "Normal operation"
  ∧ evaluate_alerts THRESHOLDS pump_only = Some []
  ∧ alerts_of <$> get_alerts {| latest_reading := pump_only;
                                sensor_readings := Deque MAX_READINGS [pump_only] |}
    = Some [].
Proof.
  destruct (missing_fields_are_safe pump_only)
    as (Hdo & Ham & Hwl & Hwt & Hph & Hdef & Hall).
  assert (Forall (λ key, pump_only !! key = None) threshold_fields) as Hmissing
    by (by repeat constructor).
  assert (numeric_where_present pump_only) as Hnum
    by (repeat constructor; intros v Hv; by vm_compute in Hv).
  destruct (Hall Hmissing) as (Hnormal & Hnone & Hserved).
  split_and!;
    first [ by apply Hdo | by apply Ham | by apply Hwl | by apply Hwt | by apply Hph
          | by apply Hdef | exact Hnormal | exact Hnone | by apply Hserved ].
Defined.

(** C8 as stated fails: a reading without any sensor value, reported while
    the pump has failed, is diagnosed "Normal operation" but its alert list
    is not empty. *)
Lemma failed_pump_alerts_without_sensors :
  Forall (λ key, failed_pump_only !! key = None)
    ["water_temp_C"; "air_temp_C"; "pH"; "ammonia_mgL"; "dissolved_oxygen_mgL";
     "ec_uScm"; "water_level_percent"; "humidity_percent"; "light_lux"]
  ∧ diagnose THRESHOLDS failed_pump_only = Some "Normal operation"
  ∧ evaluate_alerts THRESHOLDS failed_pump_only = Some [pump_alert]
  ∧ alerts_of <$> get_alerts {| latest_reading := failed_pump_only;
                                sensor_readings := Deque MAX_READINGS [failed_pump_only] |}
    ≠ Some [].
Proof. split_and!; [by repeat constructor | done | done | by vm_compute]. Qed.

(** ** The history query *)

Lemma slice_from_zero {A} (l : list A) : slice_from 0 l = l.
Proof.
  unfold slice_from. simpl. by rewrite Z.min_l by lia.
Qed.

(** For a positive limit the query is the specification's: the last
    [min limit length] entries, oldest first. *)
Lemma get_data_positive (limit : Z) (st : Store) :
  (0 < limit)%Z →
  let history := items (sensor_readings st) in
  readings (get_data limit st) = drop (length history - Z.to_nat limit) history
  ∧ count (get_data limit st) = Nat.min (Z.to_nat limit) (length history).
Proof.
  intros Hpos history. unfold get_data. fold history. simpl.
  destruct (Z.ltb_spec limit (Z.of_nat (length history))) as [Hlt | Hge].
  - unfold slice_from.
    destruct (Z.ltb_spec (- limit) 0) as [_ | ?]; [|lia].
    rewrite Z.max_r by lia.
    replace (Z.to_nat (- limit + Z.of_nat (length history)))
      with (length history - Z.to_nat limit) by lia.
    split; [done|]. rewrite length_drop. lia.
  - replace (length history - Z.to_nat limit) with 0 by lia.
    split; [done|]. lia.
Qed.

(** A negative limit cuts entries off the old end instead. *)
Lemma get_data_negative (limit : Z) (st : Store) :
  (limit < 0)%Z →
  readings (get_data limit st) = drop (Z.to_nat (- limit)) (items (sensor_readings st)).
Proof.
  intros Hneg. unfold get_data. simpl.
  destruct (Z.ltb_spec limit (Z.of_nat (length (items (sensor_readings st))))); [|lia].
  unfold slice_from.
  destruct (Z.ltb_spec (- limit) 0); [lia|].
  destruct (Z.min_spec (- limit) (Z.of_nat (length (items (sensor_readings st)))))
    as [[_ ->] | [Hle ->]]; [done|].
  rewrite Nat2Z.id, drop_all. symmetry. apply drop_ge. lia.
Qed.

(** C5, at the input where the code departs from it: with [limit = 0] the
    slice [readings_list[-0:]] is the whole list, so the query returns every
    stored reading and not zero of them. *)
Theorem get_data_limit_zero_returns_all (st : Store) :
  readings (get_data 0 st) = items (sensor_readings st)
  ∧ count (get_data 0 st) = length (items (sensor_readings st)).
Proof.
  unfold get_data. simpl.
  destruct (Z.ltb_spec 0 (Z.of_nat (length (items (sensor_readings st)))));
    by rewrite ?slice_from_zero.
Qed.

Example get_data_limit_zero_two_readings :
  readings (get_data 0 two_readings) = [stored 1; stored 2]
  ∧ count (get_data 0 two_readings) = 2
  ∧ Nat.min 0 (length (items (sensor_readings two_readings))) = 0.
Proof. repeat split. Qed.

Example get_data_limit_minus_one :
  readings (get_data (-1) two_readings) = [stored 2].
Proof. reflexivity. Qed.

Example get_data_limit_one :
  readings (get_data 1 two_readings) = [stored 2].
Proof. reflexivity. Qed.

(** ** The bounded history *)

Section Deque.
Context {A : Type}.
Implicit Types (d : deque A) (x : A).

Lemma deque_append_maxlen x d : maxlen (deque_append x d) = maxlen d.
Proof. reflexivity. Qed.

Lemma deque_append_items x d :
  length (items d) ≤ maxlen d →
  items (deque_append x d) = drop (length (items d) + 1 - maxlen d) (items d ++ [x]).
Proof.
  intros Hbound. unfold deque_append. simpl. rewrite length_app. simpl.
  destruct (Nat.ltb_spec (maxlen d) (length (items d) + 1)) as [Hfull | Hroom].
  - by replace (length (items d) + 1 - maxlen d) with 1 by lia.
  - by replace (length (items d) + 1 - maxlen d) with 0 by lia.
Qed.

Lemma deque_append_bounded x d :
  length (items d) ≤ maxlen d → length (items (deque_append x d)) ≤ maxlen d.
Proof.
  intros Hbound. rewrite deque_append_items by done.
  rewrite length_drop, length_app. simpl. lia.
Qed.

(** With room for at least one entry, the entry just appended is the
    newest. *)
Lemma deque_append_last x d :
  0 < maxlen d → length (items d) ≤ maxlen d → last (items (deque_append x d)) = Some x.
Proof.
  intros Hpos Hbound. rewrite deque_append_items by done.
  rewrite last_lookup, length_drop, lookup_drop, length_app. simpl.
  replace (length (items d) + 1 - maxlen d
           + Init.Nat.pred (length (items d) + 1 - (length (items d) + 1 - maxlen d)))
    with (length (items d) + 0) by lia.
  by rewrite lookup_app_r, Nat.add_0_r, Nat.sub_diag by lia.
Qed.

End Deque.

Lemma on_message_maxlen msg st :
  maxlen (sensor_readings (on_message msg st)) = maxlen (sensor_readings st).
Proof. unfold on_message. by destruct (enrich msg). Qed.

(** What the history holds after any run of deliveries: the old entries
    followed by the accepted ones, cut to the newest [maxlen]. *)
Lemma deliver_items (msgs : list Message) (st : Store) :
  length (items (sensor_readings st)) ≤ maxlen (sensor_readings st) →
  items (sensor_readings (deliver msgs st)) =
    drop (length (items (sensor_readings st) ++ accepted msgs)
          - maxlen (sensor_readings st))
         (items (sensor_readings st) ++ accepted msgs).
Proof.
  revert st. induction msgs as [|msg msgs IH]; intros st Hbound.
  - simpl. rewrite app_nil_r. by replace (_ - _) with 0 by lia.
  - change (deliver (msg :: msgs) st) with (deliver msgs (on_message msg st)).
    change (accepted (msg :: msgs))
      with (match enrich msg with
            | Some payload => payload :: accepted msgs
            | None => accepted msgs
            end).
    unfold on_message. destruct (enrich msg) as [payload|]; [|by apply IH].
    rewrite IH by (by apply (deque_append_bounded payload (sensor_readings st))).
    change (sensor_readings (store_reading payload st))
      with (deque_append payload (sensor_readings st)).
    rewrite deque_append_maxlen, deque_append_items by done.
    set (old := items (sensor_readings st)) in *.
    set (C := maxlen (sensor_readings st)) in *.
    rewrite <- drop_app_le by (rewrite length_app; simpl; lia).
    rewrite drop_drop, <- app_assoc. simpl.
    f_equal. rewrite length_drop, !length_app. simpl. lia.
Qed.

Lemma deliver_bounded (msgs : list Message) (st : Store) :
  length (items (sensor_readings st)) ≤ maxlen (sensor_readings st) →
  length (items (sensor_readings (deliver msgs st))) ≤ maxlen (sensor_readings st).
Proof.
  intros Hbound. rewrite deliver_items by done. rewrite length_drop. lia.
Qed.

(** C2.  From a store whose history is within its capacity [C] (the initial
    one has [C = 500] and no entry), after deliveries of which more than [C]
    are accepted the history has exactly [C] entries, the last [C] accepted
    readings in delivery order; after every prefix of the deliveries its
    length is at most [C]. *)
Theorem history_keeps_newest (msgs : list Message) (st : Store) :
  let C := maxlen (sensor_readings st) in
  length (items (sensor_readings st)) ≤ C →
  C < length (accepted msgs) →
  length (items (sensor_readings (deliver msgs st))) = C
  ∧ items (sensor_readings (deliver msgs st))
    = drop (length (accepted msgs) - C) (accepted msgs)
  ∧ ∀ k, length (items (sensor_readings (deliver (take k msgs) st))) ≤ C.
Proof.
  intros C Hbound Hmany.
  assert (items (sensor_readings (deliver msgs st))
          = drop (length (accepted msgs) - C) (accepted msgs)) as Hitems.
  { rewrite deliver_items by done. fold C.
    rewrite drop_app_ge by (rewrite length_app; lia).
    f_equal. rewrite length_app. lia. }
  split; [|split; [done|]].
  - rewrite Hitems, length_drop. lia.
  - intros k. by apply deliver_bounded.
Qed.

Lemma history_keeps_newest_witness :
  length (items (sensor_readings (deliver burst initial_store))) = 500
  ∧ items (sensor_readings (deliver burst initial_store))
    = drop (length (accepted burst) - 500) (accepted burst)
  ∧ ∀ k, length (items (sensor_readings (deliver (take k burst) initial_store))) ≤ 500.
Proof.
  apply (history_keeps_newest burst initial_store).
  - simpl. lia.
  - vm_compute. lia.
Defined.

(** ** Atomic ingestion *)

Lemma enrich_truthy msg payload : enrich msg = Some payload → truthy payload = true.
Proof.
  unfold enrich. destruct (String.eqb _ _); [|done].
  destruct (decoded msg) as [p|]; [simpl|done].
  destruct (diagnose THRESHOLDS p) as [label|]; [simpl|done].
  intros [= <-]. unfold truthy. apply negb_true_iff, Nat.eqb_neq.
  rewrite map_size_empty_iff. apply insert_non_empty.
Qed.

Lemma last_drop_one {A} (l : list A) (x : A) :
  last l = Some x → drop (length l - 1) l = [x].
Proof.
  intros [l' ->]%last_Some. rewrite length_app. simpl.
  replace (length l' + 1 - 1) with (length l' + 0) by lia.
  by rewrite drop_app_add.
Qed.

(** The sequential reading of the claim: when the handler returns, the
    reading it stored is the latest one and the newest of the history. *)
Lemma on_message_stores msg st payload :
  enrich msg = Some payload →
  0 < maxlen (sensor_readings st) →
  length (items (sensor_readings st)) ≤ maxlen (sensor_readings st) →
  latest_reading (on_message msg st) = payload
  ∧ last (items (sensor_readings (on_message msg st))) = Some payload.
Proof.
  intros Hmsg Hpos Hbound. unfold on_message. rewrite Hmsg.
  split; [done|]. by apply (deque_append_last payload (sensor_readings st)).
Qed.

(** The four steps of the critical section, run without interruption, are
    the handler. *)
Lemma critical_section_is_on_message s msg payload :
  pc s = Idle → lock s = None → enrich msg = Some payload →
  ∃ s1 s2 s3 s4,
    step s Silent s1 ∧ step s1 Silent s2 ∧ step s2 Silent s3
    ∧ step s3 (Ingested payload) s4
    ∧ store s4 = on_message msg (store s) ∧ lock s4 = None ∧ pc s4 = Idle.
Proof.
  intros Hpc Hlock Hmsg.
  eexists _, _, _, _.
  split; [by apply (ingest_acquire s msg payload)|].
  split; [by apply ingest_set_latest|].
  split; [by apply ingest_append|].
  split; [by apply ingest_release|].
  simpl. unfold on_message. by rewrite Hmsg.
Qed.

Lemma lock_invariant_initial : lock_invariant initial_system.
Proof.
  unfold lock_invariant, initial_system, initial_store, MAX_READINGS. simpl.
  repeat split; [lia | lia | done | by right].
Qed.

Lemma lock_invariant_step s e s' : lock_invariant s → step s e s' → lock_invariant s'.
Proof.
  unfold lock_invariant. intros (Hpos & Hbound & Hpc) Hstep.
  destruct Hstep as [s msg Hidle Hdrop | s msg payload Hidle Hmsg Hfree
                    | s payload Hat | s payload Hat | s payload Hat
                    | s n Hfree | s n Hheld | s n Hheld]; simpl.
  - done.
  - rewrite Hidle in Hpc. destruct Hpc as [_ Hpair].
    repeat split; try done. by apply (enrich_truthy msg).
  - rewrite Hat in Hpc. destruct Hpc as (Hlock & Htruthy & _). by repeat split.
  - rewrite Hat in Hpc. destruct Hpc as (Hlock & Htruthy & Hlatest).
    repeat split; try done.
    + by apply deque_append_bounded.
    + by apply (deque_append_last payload (sensor_readings (store s))).
  - rewrite Hat in Hpc. destruct Hpc as (Hlock & Htruthy & Hlatest & Hlast).
    repeat split; try done. left. by rewrite Hlatest.
  - repeat split; try done. destruct (pc s); try done.
    + destruct Hpc as [_ Hpair]. by split.
    + destruct Hpc as [Hlock _]. congruence.
    + destruct Hpc as [Hlock _]. congruence.
    + destruct Hpc as [Hlock _]. congruence.
  - by repeat split.
  - repeat split; try done. destruct (pc s); try done.
    + destruct Hpc as [_ Hpair]. by split.
    + destruct Hpc as [Hlock _]. congruence.
    + destruct Hpc as [Hlock _]. congruence.
    + destruct Hpc as [Hlock _]. congruence.
Qed.

Lemma reachable_lock_invariant s : reachable s → lock_invariant s.
Proof.
  induction 1 as [|s e s' _ IH Hstep];
    [apply lock_invariant_initial | by apply (lock_invariant_step s e s')].
Qed.

(** While a handler holds the lock no step changes the store, so everything
    it reads inside one [with lock:] block comes from one store. *)
Lemma store_stable_while_serving s e s' n :
  reachable s → lock s = Some (Serve n) → step s e s' → store s' = store s.
Proof.
  intros Hreach Hheld Hstep.
  destruct (reachable_lock_invariant s Hreach) as (_ & _ & Hpc).
  destruct Hstep; simpl; try done;
    match goal with H : pc _ = _ |- _ => rewrite H in Hpc end;
    destruct Hpc as [Hlock _]; congruence.
Qed.

(** Between the two assignments the pair is torn: it is the lock, not the
    order of the assignments, that hides this state from the handlers. *)
Example torn_pair_inside_lock :
  reachable ingest_latest_set
  ∧ ¬ pair_consistent (latest_reading (store ingest_latest_set))
        (items (sensor_readings (store ingest_latest_set)))
  ∧ ∀ n e s', ¬ (step ingest_latest_set e s' ∧ lock s' = Some (Serve n)).
Proof.
  split; [|split].
  - apply (reachable_step ingest_locked Silent); [|by apply ingest_set_latest].
    apply (reachable_step initial_system Silent); [apply reachable_initial|].
    by apply (ingest_acquire initial_system (sample_message 1) first_payload).
  - intros [Hlast | [_ Hempty]]; [done|].
    by destruct (insert_non_empty (<["reading_id" := int 1]> ∅ : Reading)
                  "diagnosis" (VStr "Normal operation")).
  - intros n e s' [Hstep Hlock]. by inversion Hstep; subst; simpl in *.
Qed.

(** C1.  In every reachable state of the interleaving model: a handler that
    reads the pair under the lock sees [latest_reading] equal to the newest
    entry of the history (or both still empty), and when the ingestion thread
    leaves its critical section for a reading, that reading is what
    [get_latest] returns, it is the newest entry of the history, and it is
    the one entry of the history query with limit 1. *)
Theorem ingest_is_atomic (s s' : System) (e : event) :
  reachable s → step s e s' →
  match e with
  | Observed _ latest history => pair_consistent latest history
  | Ingested payload =>
      get_latest (store s') = inl payload
      ∧ last (items (sensor_readings (store s'))) = Some payload
      ∧ readings (get_data 1 (store s')) = [payload]
  | Silent | Dropped _ => True
  end.
Proof.
  intros Hreach Hstep.
  destruct (reachable_lock_invariant s Hreach) as (Hpos & Hbound & Hpc).
  destruct Hstep as [s msg Hidle Hdrop | s msg payload Hidle Hmsg Hfree
                    | s payload Hat | s payload Hat | s payload Hat
                    | s n Hfree | s n Hheld | s n Hheld]; try exact I.
  - cbn [store]. rewrite Hat in Hpc. destruct Hpc as (_ & Htruthy & Hlatest & Hlast).
    split; [|split; [done|]].
    + unfold get_latest. rewrite Hlatest. by rewrite Htruthy.
    + destruct (get_data_positive 1 (store s)) as [-> _]; [lia|].
      by apply last_drop_one.
  - destruct (pc s); destruct Hpc as [Hlock Hrest]; congruence || exact Hrest.
Qed.

Lemma ingest_is_atomic_witness :
  get_latest (store ingest_released) = inl first_payload
  ∧ last (items (sensor_readings (store ingest_released))) = Some first_payload
  ∧ readings (get_data 1 (store ingest_released)) = [first_payload].
Proof.
  apply (ingest_is_atomic ingest_appended ingest_released (Ingested first_payload)).
  - apply (reachable_step ingest_latest_set Silent);
      [|by apply (ingest_append ingest_latest_set first_payload)].
    apply (reachable_step ingest_locked Silent);
      [|by apply (ingest_set_latest ingest_locked first_payload)].
    apply (reachable_step initial_system Silent); [apply reachable_initial|].
    by apply (ingest_acquire initial_system (sample_message 1) first_payload).
  - by apply (ingest_release ingest_appended first_payload).
Defined.

(** ** Control commands *)

Section Commands.
Import Simulator.
Implicit Types (s : Sim) (state : value).

Lemma is_str_false_of_unrecognized states known state :
  recognized states state = false → known ∈ states → is_str known state = false.
Proof.
  unfold recognized. intros Hnone Hin.
  destruct (is_str known state) eqn:Hknown; [|done].
  assert (existsb (λ known, is_str known state) states = true) as Hsome
    by (apply existsb_exists; exists known; by rewrite <- list_elem_of_In).
  congruence.
Qed.

Lemma set_pump_unrecognized s state :
  recognized pump_states state = false → set_pump state s = s.
Proof.
  intros H. unfold set_pump.
  by rewrite !(is_str_false_of_unrecognized pump_states _ state H)
    by (unfold pump_states; set_solver).
Qed.

Lemma set_light_unrecognized s state :
  recognized light_states state = false → set_light state s = with_manual_light true s.
Proof.
  intros H. unfold set_light.
  by rewrite !(is_str_false_of_unrecognized light_states _ state H)
    by (unfold light_states; set_solver).
Qed.

(** The messages of the server reach the setters with the state they
    carry. *)
Lemma on_message_pump_command (state : string) s :
  on_message (pump_command state) s = set_pump (VStr state) s.
Proof.
  unfold on_message, pump_command. cbn [decoded topic]. unfold dict_get.
  by rewrite lookup_insert_ne, lookup_insert_eq.
Qed.

Lemma on_message_light_command (state : string) s :
  on_message (light_command state) s = set_light (VStr state) s.
Proof.
  unfold on_message, light_command. cbn [decoded topic]. unfold dict_get.
  by rewrite lookup_insert_ne, lookup_insert_eq.
Qed.

(** C6 (as amended).  A pump state outside "toggle", "on", "off" leaves the
    whole device state as it was.  A light state outside "toggle", "on",
    "off", "auto" leaves [light_on] as it was and leaves the manual-light
    flag set, whatever it was before; nothing else changes.  The same holds
    of the messages as the simulator receives them. *)
Theorem unrecognized_state_effect s (pump_state light_state : string) :
  recognized pump_states (VStr pump_state) = false →
  recognized light_states (VStr light_state) = false →
  set_pump (VStr pump_state) s = s
  ∧ on_message (pump_command pump_state) s = s
  ∧ light_on (set_light (VStr light_state) s) = light_on s
  ∧ manual_light (set_light (VStr light_state) s) = true
  ∧ set_light (VStr light_state) s = with_manual_light true s
  ∧ on_message (light_command light_state) s = with_manual_light true s.
Proof.
  intros Hpump Hlight.
  rewrite on_message_pump_command, on_message_light_command.
  rewrite (set_pump_unrecognized s _ Hpump), (set_light_unrecognized s _ Hlight).
  by split_and!.
Qed.

Lemma unrecognized_state_effect_witness :
  set_pump (VStr "ON") init = init
  ∧ on_message (pump_command "ON") init = init
  ∧ light_on (set_light (VStr "dim") init) = light_on init
  ∧ manual_light (set_light (VStr "dim") init) = true
  ∧ set_light (VStr "dim") init = with_manual_light true init
  ∧ on_message (light_command "dim") init = with_manual_light true init.
Proof. apply (unrecognized_state_effect init "ON" "dim"); reflexivity. Defined.

(** C6 as stated fails: an unrecognized light state changes the manual-light
    flag of a simulator in automatic mode. *)
Lemma unrecognized_light_state_sets_manual :
  recognized light_states (VStr "dim") = false
  ∧ manual_light init = false
  ∧ manual_light (set_light (VStr "dim") init) = true
  ∧ manual_light (on_message (light_command "dim") init) ≠ manual_light init.
Proof. split_and!; [reflexivity | reflexivity | reflexivity | by vm_compute]. Qed.

(** C7.  Two "toggle" commands give back the device state they started
    from, and a second "on" (or "off") changes nothing after the first;
    the same holds of the messages as the simulator receives them. *)
Theorem pump_toggle_twice_on_off_idempotent s :
  set_pump (VStr "toggle") (set_pump (VStr "toggle") s) = s
  ∧ set_pump (VStr "on") (set_pump (VStr "on") s) = set_pump (VStr "on") s
  ∧ set_pump (VStr "off") (set_pump (VStr "off") s) = set_pump (VStr "off") s
  ∧ pump_on (on_message (pump_command "toggle") (on_message (pump_command "toggle") s))
    = pump_on s
  ∧ on_message (pump_command "on") (on_message (pump_command "on") s)
    = on_message (pump_command "on") s
  ∧ on_message (pump_command "off") (on_message (pump_command "off") s)
    = on_message (pump_command "off") s.
Proof. destruct s as [? ? ? [] ? ? ?]; by repeat split. Qed.

(** A single "toggle" is not idempotent. *)
Example pump_toggle_changes s :
  pump_on (set_pump (VStr "toggle") s) = negb (pump_on s).
Proof. reflexivity. Qed.

End Commands.

(** ** Decimal rounding *)

Lemma scale_pos n : (0 < scale n)%Q.
Proof.
  unfold scale. replace 0%Q with (inject_Z 0) by reflexivity.
  rewrite <- Zlt_Qlt. apply Z.pow_pos_nonneg; lia.
Qed.

Lemma round_half_even_comp (x y : Q) : (x == y)%Q → round_half_even x = round_half_even y.
Proof.
  intros H. unfold round_half_even. rewrite (Qfloor_comp x y H).
  assert ((x - inject_Z (Qfloor y) ?= 1 # 2) = (y - inject_Z (Qfloor y) ?= 1 # 2))%Q
    as -> by (by rewrite H).
  reflexivity.
Qed.

Lemma round_half_even_Z (k : Z) : round_half_even (inject_Z k) = k.
Proof.
  unfold round_half_even. rewrite Qfloor_Z.
  destruct (Qcompare_spec (inject_Z k - inject_Z k) (1 # 2)) as [H | H | H];
    [lra | done | lra].
Qed.

Lemma py_round_comp (x y : Q) n : (x == y)%Q → py_round x n = py_round y n.
Proof.
  intros H. unfold py_round. f_equal. f_equal. apply round_half_even_comp. by rewrite H.
Qed.

Lemma py_round_on_grid n x : on_grid n x → (py_round x n == x)%Q.
Proof.
  intros [k Hk]. pose proof (scale_pos n) as Hs. unfold py_round. fold (scale n).
  rewrite (round_half_even_comp (x * scale n) (inject_Z k)).
  - rewrite round_half_even_Z. by rewrite Hk.
  - rewrite Hk. field. lra.
Qed.

Lemma py_round_grid x n : on_grid n (py_round x n).
Proof. by eexists. Qed.

Lemma on_grid_int n (c : Z) : on_grid n (inject_Z c).
Proof.
  exists (c * 10 ^ Z.of_nat n)%Z. pose proof (scale_pos n) as Hs.
  rewrite inject_Z_mult. fold (scale n). field. lra.
Qed.

Lemma on_grid_minus n x y : on_grid n x → on_grid n y → on_grid n (x - y)%Q.
Proof.
  intros [k Hk] [j Hj]. exists (k - j)%Z. pose proof (scale_pos n) as Hs.
  rewrite Hk, Hj. unfold Zminus. rewrite inject_Z_plus, inject_Z_opp. field. lra.
Qed.

Lemma on_grid_max0 n x : on_grid n x → on_grid n (py_max0 x).
Proof.
  intros H. unfold py_max0. destruct (Qltb 0 x); [done|]. apply (on_grid_int n 0).
Qed.

Lemma py_max0_nonneg x : (0 <= py_max0 x)%Q.
Proof.
  unfold py_max0. destruct (Qltb 0 x) eqn:H; [|lra]. apply Qltb_lt in H. lra.
Qed.

(** Clamping at 0 and rounding two grid values keeps their order, and keeps
    it strict unless the larger one is clamped away too. *)
Lemma clamp_lower n (x y : Q) :
  on_grid n x → on_grid n y → (x < y)%Q →
  let f := py_round (py_max0 x) n in
  let d := py_round (py_max0 y) n in
  (0 <= f)%Q ∧ (f <= d)%Q ∧ ((f < d)%Q ↔ (0 < d)%Q).
Proof.
  intros Hx Hy Hlt f d.
  assert (f == py_max0 x)%Q as Hf by (by apply py_round_on_grid, on_grid_max0).
  assert (d == py_max0 y)%Q as Hd by (by apply py_round_on_grid, on_grid_max0).
  rewrite Hf, Hd. unfold py_max0.
  destruct (Qltb 0 x) eqn:H1; [apply Qltb_lt in H1 | apply Qltb_ge in H1];
    (destruct (Qltb 0 y) eqn:H2; [apply Qltb_lt in H2 | apply Qltb_ge in H2]);
    repeat split; intros; lra.
Qed.

(** Rounding moves a value by at most half a unit of the last decimal. *)
Lemma round_half_even_lower (y : Q) : (y - (1 # 2) <= inject_Z (round_half_even y))%Q.
Proof.
  pose proof (Qfloor_le y) as Hfloor. pose proof (Qlt_floor y) as Hceil.
  rewrite inject_Z_plus in Hceil. unfold round_half_even.
  destruct (Qcompare_spec (y - inject_Z (Qfloor y)) (1 # 2)) as [Heq | Hlt | Hgt].
  - destruct (Z.even (Qfloor y)); rewrite ?inject_Z_plus; lra.
  - lra.
  - rewrite inject_Z_plus. lra.
Qed.

Lemma py_round_lower (x : Q) n : (x - (1 # 2) / scale n <= py_round x n)%Q.
Proof.
  pose proof (scale_pos n) as Hscale. unfold py_round.
  apply Qle_shift_div_l; [done|].
  pose proof (round_half_even_lower (x * scale n)) as Hround.
  assert ((x - (1 # 2) / scale n) * scale n == x * scale n - (1 # 2))%Q as ->
    by (field; lra).
  done.
Qed.

Lemma py_round_lower_1 (x : Q) : (x - (1 # 20) <= py_round x 1)%Q.
Proof. apply (py_round_lower x 1). Qed.

Lemma py_round_lower_2 (x : Q) : (x - (1 # 200) <= py_round x 2)%Q.
Proof. apply (py_round_lower x 2). Qed.

(** Away from the clamp a penalty shows in full: of two grid values, the
    larger one positive, the clamped and rounded smaller one is non-negative
    and strictly below the clamped and rounded larger one. *)
Lemma clamp_strict n (x y : Q) :
  on_grid n x → on_grid n y → (x < y)%Q → (0 < y)%Q →
  (0 <= py_round (py_max0 x) n)%Q
  ∧ (py_round (py_max0 x) n < py_round (py_max0 y) n)%Q.
Proof.
  intros Hx Hy Hlt Hpos.
  destruct (clamp_lower n x y Hx Hy Hlt) as (Hnonneg & _ & Hstrict).
  split; [done|]. apply Hstrict.
  rewrite (py_round_on_grid n (py_max0 y)) by (by apply on_grid_max0).
  unfold py_max0. assert (Qltb 0 y = true) as -> by (by apply Qltb_lt). done.
Qed.

(** ** Generating a reading *)

Section Generation.
Import Simulator.
Context (E : Env).

(** Runs the monadic code of [get_readings] on a world given by its
    components. *)
Ltac step_through_get_readings :=
  cbv [get_readings daily_cycle gauss get_hour_of_day now_isoformat update self
       apply_to_sim mbind mret M_bind M_ret sim draws ticks fst snd negb
       reading_count ph_drift ec_drift pump_on light_on pump_failure manual_light
       set_failure_simulation with_pump_failure
       reading_id pump_status water_level_percent dissolved_oxygen_mgL].

(** The attributes after one call: the counter is one more, the two drifts
    have moved, the four switches are as before. *)
Lemma get_readings_sim (w : World) :
  ∃ ph ec,
    sim (snd (get_readings E w)) =
      {| reading_count := reading_count (sim w) + 1; ph_drift := ph; ec_drift := ec;
         pump_on := pump_on (sim w); light_on := light_on (sim w);
         pump_failure := pump_failure (sim w); manual_light := manual_light (sim w) |}.
Proof.
  destruct w as [[count ph ec pump light failure manual] d t].
  destruct failure, pump; step_through_get_readings; by eexists _, _.
Qed.

Lemma get_readings_id (w : World) :
  reading_id (fst (get_readings E w)) = (reading_count (sim w) + 1)%Z.
Proof.
  destruct w as [[count ph ec pump light failure manual] d t].
  by destruct failure, pump; step_through_get_readings.
Qed.

Lemma set_pump_reading_count state s :
  reading_count (set_pump state s) = reading_count s.
Proof.
  unfold set_pump.
  by destruct (is_str "toggle" state), (is_str "on" state), (is_str "off" state).
Qed.

Lemma set_light_reading_count state s :
  reading_count (set_light state s) = reading_count s.
Proof.
  unfold set_light.
  by destruct (is_str "toggle" state), (is_str "on" state), (is_str "off" state),
    (is_str "auto" state).
Qed.

Lemma on_message_reading_count msg s :
  reading_count (on_message msg s) = reading_count s.
Proof.
  unfold on_message. destruct (decoded msg) as [payload|]; [|done].
  destruct (String.eqb _ _); [apply set_pump_reading_count|].
  destruct (String.eqb _ _); [apply set_light_reading_count|].
  by destruct (String.eqb _ _).
Qed.

(** Every reading of a run carries an id above the counter the run started
    from, and each id is below all the later ones. *)
Lemma run_ids (acts : list action) (w : World) :
  Forall (λ r, (reading_count (sim w) < reading_id r)%Z) (fst (run E acts w))
  ∧ StronglySorted Z.lt (reading_id <$> fst (run E acts w)).
Proof.
  revert w. induction acts as [|[msg|] acts IH]; intros w; cbn [run].
  - split; constructor.
  - destruct (IH (apply_to_sim (on_message msg) w)) as [Habove Hsorted].
    split; [|done]. simpl in Habove. by rewrite on_message_reading_count in Habove.
  - pose proof (get_readings_id w) as Hid.
    destruct (get_readings_sim w) as (ph & ec & Hsim).
    destruct (get_readings E w) as [r w'] eqn:Hget. simpl in Hid, Hsim.
    destruct (IH w') as [Habove Hsorted].
    destruct (run E acts w') as [rs w''] eqn:Hrun. simpl in *.
    rewrite Hsim in Habove. simpl in Habove.
    split.
    + constructor; [lia|]. eapply Forall_impl; [exact Habove|]. simpl. intros; lia.
    + constructor; [done|]. rewrite Forall_fmap.
      eapply Forall_impl; [exact Habove|]. simpl. intros; lia.
Qed.

(** C10.  One call of [get_readings] leaves [pump_on], [light_on],
    [pump_failure] and [manual_light] as they were, adds one to the reading
    counter and returns that counter as [reading_id]; over any sequence of
    control messages and ticks the ids of the readings produced are
    strictly increasing. *)
Theorem get_readings_frame (w : World) :
  pump_on (sim (snd (get_readings E w))) = pump_on (sim w)
  ∧ light_on (sim (snd (get_readings E w))) = light_on (sim w)
  ∧ pump_failure (sim (snd (get_readings E w))) = pump_failure (sim w)
  ∧ manual_light (sim (snd (get_readings E w))) = manual_light (sim w)
  ∧ reading_count (sim (snd (get_readings E w))) = (reading_count (sim w) + 1)%Z
  ∧ reading_id (fst (get_readings E w)) = reading_count (sim (snd (get_readings E w)))
  ∧ ∀ acts, StronglySorted Z.lt (reading_id <$> fst (run E acts w)).
Proof.
  destruct (get_readings_sim w) as (ph & ec & ->). rewrite get_readings_id. simpl.
  repeat split. intros acts. apply run_ids.
Qed.

(** C4.  In every environment the standard library can provide, with
    failure simulation enabled the next reading has pump status "FAILURE",
    and its water level and its dissolved oxygen are never negative and
    strictly lower than those of the same tick (same clock, same draws)
    with failure disabled, whether the pump is then on or off. *)
Theorem failure_lowers_level_and_oxygen (w : World) :
  receivable E →
  let failing := fst (get_readings E (apply_to_sim (set_failure_simulation true) w)) in
  let healthy := fst (get_readings E (apply_to_sim (set_failure_simulation false) w)) in
  pump_status failing = "FAILURE"
  ∧ (0 <= water_level_percent failing)%Q
  ∧ (0 <= dissolved_oxygen_mgL failing)%Q
  ∧ (water_level_percent failing < water_level_percent healthy)%Q
  ∧ (dissolved_oxygen_mgL failing < dissolved_oxygen_mgL healthy)%Q.
Proof.
  intros [Hgauss Hsin] failing healthy. subst failing healthy.
  unfold GAUSS_SIGMAS in Hgauss.
  destruct w as [[count ph ec pump light failure manual] d t].
  destruct pump; step_through_get_readings;
    match goal with
    | |- context [py_round (py_max0 (py_round ?a 1 - 20)) 1] =>
        pose proof (py_round_lower_1 a) as Hlevel_low;
        match a with context [gauss_draw E ?k] => pose proof (Hgauss k) as Hdraw_level end;
        set (level := py_round a 1) in *;
        assert (on_grid 1 level) as Hlevel by apply py_round_grid
    end;
    match goal with
    | |- context [py_round (py_max0 (py_round ?a 2 - 2)) 2] =>
        pose proof (py_round_lower_2 a) as Hoxygen_low;
        match a with context [gauss_draw E ?k] => pose proof (Hgauss k) as Hdraw_oxygen end;
        match a with context [sin24 E ?h] => pose proof (Hsin h) as Hsine end;
        set (oxygen := py_round a 2) in *;
        assert (on_grid 2 oxygen) as Hoxygen by apply py_round_grid
    end.
  - destruct (clamp_strict 1 (level - 20) level) as [? ?];
      [by apply on_grid_minus, (on_grid_int 1 20) | done | lra | lra |].
    destruct (clamp_strict 2 (oxygen - 2) oxygen) as [? ?];
      [by apply on_grid_minus, (on_grid_int 2 2) | done | lra | lra |].
    by split_and!.
  - destruct (clamp_strict 1 (level - 20) (level - 5)) as [? ?];
      [by apply on_grid_minus, (on_grid_int 1 20)
      |by apply on_grid_minus, (on_grid_int 1 5) | lra | lra |].
    destruct (clamp_strict 2 (oxygen - 2) (oxygen - 1)) as [? ?];
      [by apply on_grid_minus, (on_grid_int 2 2)
      |by apply on_grid_minus, (on_grid_int 2 1) | lra | lra |].
    by split_and!.
Qed.

End Generation.

Example short_run_ids :
  Simulator.reading_id <$> fst (Simulator.run calm short_run fresh) = [1; 2; 3]%Z
  ∧ Simulator.pump_status <$> fst (Simulator.run calm short_run fresh)
    = ["ON"; "OFF"; "FAILURE"].
Proof. split; reflexivity. Qed.

(** The sample environment is one the library can provide. *)
Lemma calm_receivable : Simulator.receivable calm.
Proof.
  split; [intros k; by vm_compute|].
  intros h. unfold calm, sin24_table. cbn [Simulator.sin24].
  generalize (Z.to_nat (h mod 24)). intros n.
  do 24 (destruct n as [|n]; [by vm_compute|]). destruct n; by vm_compute.
Qed.

(** At noon with every deviate at the mean the failure costs 20 points of
    level and 2 mg/L of oxygen. *)
Lemma failure_lowers_level_and_oxygen_witness :
  let failing :=
    fst (Simulator.get_readings calm
           (Simulator.apply_to_sim (Simulator.set_failure_simulation true) fresh)) in
  let healthy :=
    fst (Simulator.get_readings calm
           (Simulator.apply_to_sim (Simulator.set_failure_simulation false) fresh)) in
  Simulator.pump_status failing = "FAILURE"
  ∧ (0 <= Simulator.water_level_percent failing)%Q
  ∧ (0 <= Simulator.dissolved_oxygen_mgL failing)%Q
  ∧ (Simulator.water_level_percent failing < Simulator.water_level_percent healthy)%Q
  ∧ (Simulator.dissolved_oxygen_mgL failing < Simulator.dissolved_oxygen_mgL healthy)%Q.
Proof. apply (failure_lowers_level_and_oxygen calm fresh calm_receivable). Defined.

Example failure_at_noon :
  Simulator.water_level_percent
    (fst (Simulator.get_readings calm
            (Simulator.apply_to_sim (Simulator.set_failure_simulation true) fresh)))
  = 75.0%Q
  ∧ Simulator.dissolved_oxygen_mgL
      (fst (Simulator.get_readings calm
              (Simulator.apply_to_sim (Simulator.set_failure_simulation true) fresh)))
    = 4.50%Q.
Proof. split; reflexivity. Qed.

(** * Further properties of the server *)

(** ** The history query, continued *)

(** X1.  With a positive limit (the default is 100) the query returns the
    newest [min limit length] entries of the history in stored order, and
    [count] is their number. *)
Theorem get_data_returns_newest (limit : Z) (st : Store) :
  (0 < limit)%Z →
  readings (get_data limit st)
    = drop (length (items (sensor_readings st)) - Z.to_nat limit)
           (items (sensor_readings st))
  ∧ count (get_data limit st)
    = Nat.min (Z.to_nat limit) (length (items (sensor_readings st)))
  ∧ (items (sensor_readings st) ≠ [] →
     last (readings (get_data limit st)) = last (items (sensor_readings st))).
Proof.
  intros Hpos. destruct (get_data_positive limit st Hpos) as [Hreadings Hcount].
  split_and!; [done | done |]. intros Hne. rewrite Hreadings.
  rewrite !last_lookup, length_drop, lookup_drop. f_equal.
  destruct (items (sensor_readings st)) as [|x l]; [done|]. simpl. lia.
Qed.

Lemma get_data_returns_newest_witness :
  readings (get_data 100 two_readings) = [stored 1; stored 2]
  ∧ count (get_data 100 two_readings) = 2
  ∧ (items (sensor_readings two_readings) ≠ [] →
     last (readings (get_data 100 two_readings))
     = last (items (sensor_readings two_readings))).
Proof. apply (get_data_returns_newest 100 two_readings). reflexivity. Defined.

(** X2.  Whatever the limit, negative ones included, the query returns a
    suffix of the history (no entry invented, reordered or repeated) and
    [count] is the number of readings returned. *)
Theorem get_data_is_suffix (limit : Z) (st : Store) :
  readings (get_data limit st) `suffix_of` items (sensor_readings st)
  ∧ count (get_data limit st) = length (readings (get_data limit st)).
Proof.
  split; [|done].
  destruct (Z.lt_trichotomy limit 0) as [Hneg | [-> | Hpos]].
  - rewrite get_data_negative by done. apply suffix_drop.
  - unfold get_data. cbn [readings].
    destruct (Z.ltb_spec 0 (Z.of_nat (length (items (sensor_readings st)))));
      by rewrite ?slice_from_zero.
  - destruct (get_data_positive limit st Hpos) as [-> _]. apply suffix_drop.
Qed.

(** ** Diagnosis, continued *)

Lemma diagnose_agree (T : Thresholds) (r r' : Reading) :
  Forall (λ key, r !! key = r' !! key) threshold_fields →
  diagnose T r = diagnose T r'.
Proof.
  unfold threshold_fields. rewrite !Forall_cons.
  intros (Hdo & Ham & Hwl & Hwt & Hph & _).
  unfold diagnose, low_do, high_ammonia, low_water_level, high_temp, low_ph, dict_get.
  by rewrite Hdo, Ham, Hwl, Hwt, Hph.
Qed.

Lemma diagnose_insert_other (T : Thresholds) (r : Reading) key v :
  key ∉ threshold_fields → diagnose T (<[key := v]> r) = diagnose T r.
Proof.
  intros Hkey. apply diagnose_agree. apply Forall_forall. intros k Hk.
  apply lookup_insert_ne. by intros ->.
Qed.

(** X3.  The diagnosis is a function of the five threshold fields alone:
    two readings that agree on them get the same result, so no other key
    (timestamp, pump status, a diagnosis sent by the producer, ...) has any
    influence, and attaching the diagnosis does not change it. *)
Theorem diagnose_reads_threshold_fields_only (T : Thresholds) (r r' : Reading) :
  Forall (λ key, r !! key = r' !! key) threshold_fields →
  diagnose T r = diagnose T r'
  ∧ ∀ label, diagnose T (<["diagnosis" := VStr label]> r) = diagnose T r'.
Proof.
  intros Hagree. split; [by apply diagnose_agree|].
  intros label. rewrite diagnose_insert_other; [by apply diagnose_agree|].
  unfold threshold_fields. rewrite !not_elem_of_cons.
  split_and!; done || apply not_elem_of_nil.
Qed.

Lemma diagnose_reads_threshold_fields_only_witness :
  diagnose THRESHOLDS acidic = diagnose THRESHOLDS (<["pump_status" := VStr "OFF"]> acidic)
  ∧ ∀ label,
      diagnose THRESHOLDS (<["diagnosis" := VStr label]> acidic)
      = diagnose THRESHOLDS (<["pump_status" := VStr "OFF"]> acidic).
Proof.
  apply (diagnose_reads_threshold_fields_only THRESHOLDS acidic
           (<["pump_status" := VStr "OFF"]> acidic)).
  by repeat constructor.
Defined.

Lemma Qltb_irrefl (x : Q) : Qltb x x = false.
Proof. apply Qltb_ge. apply Qle_refl. Qed.

Lemma py_lt_at_bound (bound : Q) : py_lt (VNum (Finite bound)) bound = Some false.
Proof. change (Some (Qltb bound bound) = Some false). by rewrite Qltb_irrefl. Qed.

Lemma py_gt_at_bound (bound : Q) : py_gt (VNum (Finite bound)) bound = Some false.
Proof. change (Some (Qltb bound bound) = Some false). by rewrite Qltb_irrefl. Qed.

(** X4.  The comparisons are strict and false on NaN: for every threshold
    configuration, a reading with each value exactly on its bound, and a
    reading with each value NaN, are diagnosed "Normal operation" and raise
    no alert. *)
Theorem thresholds_are_strict (T : Thresholds) :
  diagnose T (on_the_thresholds T) = Some "Normal operation"
  ∧ evaluate_alerts T (on_the_thresholds T) = Some []
  ∧ diagnose T all_nan = Some "Normal operation"
  ∧ evaluate_alerts T all_nan = Some [].
Proof.
  assert (low_do T (on_the_thresholds T) = Some false) as Hdo
    by apply (py_lt_at_bound (do_low T)).
  assert (high_ammonia T (on_the_thresholds T) = Some false) as Ham
    by apply (py_gt_at_bound (ammonia_high T)).
  assert (low_water_level T (on_the_thresholds T) = Some false) as Hwl
    by apply (py_lt_at_bound (water_level_low T)).
  assert (high_temp T (on_the_thresholds T) = Some false) as Hwt
    by apply (py_gt_at_bound (temp_high T)).
  assert (low_ph T (on_the_thresholds T) = Some false) as Hph
    by apply (py_lt_at_bound (ph_low T)).
  split_and!.
  - by rewrite (diagnose_flags T _ false false false false false).
  - unfold evaluate_alerts. by rewrite Hdo, Ham, Hwl, Hwt, Hph.
  - reflexivity.
  - reflexivity.
Qed.

(** X5.  Each label names one situation.  On a reading whose comparisons
    evaluate: "Pump failure suspected" means low water and low oxygen;
    "Overfeeding / biofilter stress" means high ammonia and low oxygen with
    the water level fine; "Thermal oxygen stress" means high temperature and
    low oxygen with water level and ammonia fine; "Leak or evaporation"
    means low water with the oxygen fine; the pH label means low pH with no
    earlier rule holding; "Normal operation" means no rule holds. *)
Theorem diagnosis_label_meaning (T : Thresholds) (r : Reading) (ld ha lw ht lp : bool) :
  low_do T r = Some ld → high_ammonia T r = Some ha →
  low_water_level T r = Some lw → high_temp T r = Some ht → low_ph T r = Some lp →
  (diagnose T r = Some "Pump failure suspected" ↔ lw = true ∧ ld = true)
  ∧ (diagnose T r = Some "Overfeeding / biofilter stress"
     ↔ lw = false ∧ ha = true ∧ ld = true)
  ∧ (diagnose T r = Some "Thermal oxygen stress"
     ↔ lw = false ∧ ha = false ∧ ht = true ∧ ld = true)
  ∧ (diagnose T r = Some "Leak or evaporation" ↔ lw = true ∧ ld = false)
  ∧ (diagnose T r = Some "pH too low - add buffer"
     ↔ lp = true ∧ lw = false ∧ (ld = false ∨ (ha = false ∧ ht = false)))
  ∧ (diagnose T r = Some "Normal operation"
     ↔ lp = false ∧ lw = false ∧ (ld = false ∨ (ha = false ∧ ht = false))).
Proof.
  intros Hld Hha Hlw Hht Hlp.
  rewrite (diagnose_flags T r _ _ _ _ _ Hld Hha Hlw Hht Hlp).
  destruct ld, ha, lw, ht, lp; cbn; split_and!; split; intros H;
    first [ discriminate H | reflexivity | by repeat split; auto
          | by destruct H as (? & ? & [? | [? ?]])
          | by destruct H as (? & ? & ? & ?) | by destruct H as (? & ? & ?)
          | by destruct H as (? & ?) ].
Qed.

Lemma diagnosis_label_meaning_witness :
  diagnose THRESHOLDS low_water_high_ammonia = Some "Pump failure suspected"
  ↔ true = true ∧ true = true.
Proof.
  apply (diagnosis_label_meaning THRESHOLDS low_water_high_ammonia
           true true true false false); reflexivity.
Defined.

(** ** Alerts, continued *)

Lemma check_sensor_step (cond : option bool) (r : Reading) key mk alerts (b : bool) name :
  cond = Some b → (b = true → is_Some (r !! key)) → (∀ v, sensor (mk v) = name) →
  ∃ out, check_sensor cond r key mk alerts = Some out
         ∧ sensor <$> out = (sensor <$> alerts) ++ (if b then [name] else []).
Proof.
  intros -> Hkey Hname. unfold check_sensor, subscript. cbn [mbind option_bind].
  destruct b.
  - destruct (Hkey eq_refl) as [v ->]. cbn [mbind option_bind].
    eexists. split; [done|]. by rewrite fmap_app, <- (Hname v).
  - eexists. split; [done|]. by rewrite app_nil_r.
Qed.

(** Under the shipped thresholds a comparison that holds was made on a
    stored value, never on the default. *)
Lemma flagged_fields_present (r : Reading) :
  (low_do THRESHOLDS r = Some true → is_Some (r !! "dissolved_oxygen_mgL"))
  ∧ (high_ammonia THRESHOLDS r = Some true → is_Some (r !! "ammonia_mgL"))
  ∧ (low_water_level THRESHOLDS r = Some true → is_Some (r !! "water_level_percent"))
  ∧ (high_temp THRESHOLDS r = Some true → is_Some (r !! "water_temp_C"))
  ∧ (low_ph THRESHOLDS r = Some true → is_Some (r !! "pH")).
Proof.
  split_and!; first [by apply py_lt_true_present | by apply py_gt_true_present].
Qed.

(** The alert list is the threshold alerts in the order of the checks,
    followed by the pump alert when the pump has failed. *)
Lemma evaluate_alerts_shape (r : Reading) (ld ha lw ht lp : bool) :
  low_do THRESHOLDS r = Some ld → high_ammonia THRESHOLDS r = Some ha →
  low_water_level THRESHOLDS r = Some lw → high_temp THRESHOLDS r = Some ht →
  low_ph THRESHOLDS r = Some lp →
  ∃ found,
    evaluate_alerts THRESHOLDS r
      = Some (found ++ if is_str "FAILURE" (dict_get r "pump_status" VNone)
                       then [pump_alert] else [])
    ∧ sensor <$> found = alert_sensors ld ha lw ht lp false.
Proof.
  intros Hld Hha Hlw Hht Hlp.
  destruct (flagged_fields_present r) as (Pdo & Pam & Pwl & Pwt & Pph).
  unfold evaluate_alerts.
  match goal with |- context [check_sensor ?c r ?k ?mk ?a] =>
    destruct (check_sensor_step c r k mk a ld "dissolved_oxygen" Hld)
      as (l1 & -> & H1); [intros ->; by apply Pdo | done |]
  end. cbn [mbind option_bind].
  match goal with |- context [check_sensor ?c r ?k ?mk ?a] =>
    destruct (check_sensor_step c r k mk a ha "ammonia" Hha)
      as (l2 & -> & H2); [intros ->; by apply Pam | done |]
  end. cbn [mbind option_bind].
  match goal with |- context [check_sensor ?c r ?k ?mk ?a] =>
    destruct (check_sensor_step c r k mk a lw "water_level" Hlw)
      as (l3 & -> & H3); [intros ->; by apply Pwl | done |]
  end. cbn [mbind option_bind].
  match goal with |- context [check_sensor ?c r ?k ?mk ?a] =>
    destruct (check_sensor_step c r k mk a ht "temperature" Hht)
      as (l4 & -> & H4); [intros ->; by apply Pwt | done |]
  end. cbn [mbind option_bind].
  match goal with |- context [check_sensor ?c r ?k ?mk ?a] =>
    destruct (check_sensor_step c r k mk a lp "pH" Hlp)
      as (l5 & -> & H5); [intros ->; by apply Pph | done |]
  end. cbn [mbind option_bind].
  exists l5. split.
  - by destruct (is_str "FAILURE" _); rewrite ?app_nil_r.
  - rewrite H5, H4, H3, H2, H1. unfold alert_sensors.
    by rewrite app_nil_r, <- !app_assoc.
Qed.

(** X6.  On a reading whose comparisons evaluate, the alert evaluation
    returns one alert per violated condition and no other, in the fixed
    order dissolved oxygen, ammonia, water level, temperature, pH, pump; it
    never raises on the message's subscript. *)
Theorem alerts_follow_conditions (r : Reading) (ld ha lw ht lp : bool) :
  low_do THRESHOLDS r = Some ld → high_ammonia THRESHOLDS r = Some ha →
  low_water_level THRESHOLDS r = Some lw → high_temp THRESHOLDS r = Some ht →
  low_ph THRESHOLDS r = Some lp →
  ∃ alerts,
    evaluate_alerts THRESHOLDS r = Some alerts
    ∧ sensor <$> alerts
      = alert_sensors ld ha lw ht lp (is_str "FAILURE" (dict_get r "pump_status" VNone))
    ∧ length alerts ≤ 6.
Proof.
  intros Hld Hha Hlw Hht Hlp.
  destruct (evaluate_alerts_shape r ld ha lw ht lp Hld Hha Hlw Hht Hlp)
    as (found & Halerts & Hfound).
  eexists. split; [exact Halerts|].
  assert (sensor <$> found ++ (if is_str "FAILURE" (dict_get r "pump_status" VNone)
                               then [pump_alert] else [])
          = alert_sensors ld ha lw ht lp
              (is_str "FAILURE" (dict_get r "pump_status" VNone))) as Hsensors.
  { rewrite fmap_app, Hfound. unfold alert_sensors.
    rewrite app_nil_r, <- !app_assoc. by destruct (is_str "FAILURE" _). }
  split; [done|].
  rewrite <- (length_fmap sensor), Hsensors.
  by destruct ld, ha, lw, ht, lp, (is_str "FAILURE" _); cbn; lia.
Qed.

Lemma alerts_follow_conditions_witness :
  ∃ alerts,
    evaluate_alerts THRESHOLDS overfed = Some alerts
    ∧ sensor <$> alerts = ["dissolved_oxygen"; "ammonia"]
    ∧ length alerts ≤ 6.
Proof.
  apply (alerts_follow_conditions overfed true true false false false); reflexivity.
Defined.

(** X7.  A diagnosis other than "Normal operation" never comes with an empty
    alert list: whenever [diagnose] names a problem on a reading, the alert
    evaluation of the same reading returns at least one alert. *)
Theorem problem_diagnosis_has_alert (r : Reading) (label : string) :
  diagnose THRESHOLDS r = Some label → label ≠ "Normal operation" →
  ∃ alerts, evaluate_alerts THRESHOLDS r = Some alerts ∧ alerts ≠ [].
Proof.
  intros Hdiag Hlabel.
  destruct (low_do THRESHOLDS r) as [ld|] eqn:Hld;
    [|by unfold diagnose in Hdiag; rewrite Hld in Hdiag].
  destruct (high_ammonia THRESHOLDS r) as [ha|] eqn:Hha;
    [|by unfold diagnose in Hdiag; rewrite Hld, Hha in Hdiag].
  destruct (low_water_level THRESHOLDS r) as [lw|] eqn:Hlw;
    [|by unfold diagnose in Hdiag; rewrite Hld, Hha, Hlw in Hdiag].
  destruct (high_temp THRESHOLDS r) as [ht|] eqn:Hht;
    [|by unfold diagnose in Hdiag; rewrite Hld, Hha, Hlw, Hht in Hdiag].
  destruct (low_ph THRESHOLDS r) as [lp|] eqn:Hlp;
    [|by unfold diagnose in Hdiag; rewrite Hld, Hha, Hlw, Hht, Hlp in Hdiag].
  rewrite (diagnose_flags THRESHOLDS r _ _ _ _ _ Hld Hha Hlw Hht Hlp) in Hdiag.
  injection Hdiag as <-.
  destruct (evaluate_alerts_shape r ld ha lw ht lp Hld Hha Hlw Hht Hlp)
    as (found & -> & Hfound).
  eexists. split; [done|]. intros [-> _]%app_eq_nil.
  by destruct ld, ha, lw, ht, lp.
Qed.

Lemma problem_diagnosis_has_alert_witness :
  ∃ alerts, evaluate_alerts THRESHOLDS acidic = Some alerts ∧ alerts ≠ [].
Proof.
  apply (problem_diagnosis_has_alert acidic "pH too low - add buffer");
    [reflexivity | discriminate].
Defined.

(** The converse fails: high ammonia with the oxygen fine is diagnosed
    "Normal operation" and still raises the ammonia alert. *)
Example normal_diagnosis_with_alert :
  diagnose THRESHOLDS (<["ammonia_mgL" := int 1]> ∅) = Some "Normal operation"
  ∧ sensor <$> default [] (evaluate_alerts THRESHOLDS (<["ammonia_mgL" := int 1]> ∅))
    = ["ammonia"].
Proof. split; reflexivity. Qed.

(** ** Ingestion, continued *)

Lemma diagnose_ill_typed (r : Reading) key v :
  key ∈ threshold_fields → r !! key = Some v → as_number v = None →
  diagnose THRESHOLDS r = None.
Proof.
  unfold threshold_fields. rewrite !elem_of_cons, elem_of_nil.
  intros Hkey Hv Hnum.
  assert (∀ bound dflt, py_lt (dict_get r key dflt) bound = None) as Hlt
    by (intros; unfold py_lt, dict_get; by rewrite Hv; cbn; rewrite Hnum).
  assert (∀ bound dflt, py_gt (dict_get r key dflt) bound = None) as Hgt
    by (intros; unfold py_gt, dict_get; by rewrite Hv; cbn; rewrite Hnum).
  assert (low_do THRESHOLDS r = None ∨ high_ammonia THRESHOLDS r = None
          ∨ low_water_level THRESHOLDS r = None ∨ high_temp THRESHOLDS r = None
          ∨ low_ph THRESHOLDS r = None) as Hraises.
  { unfold low_do, high_ammonia, low_water_level, high_temp, low_ph.
    destruct Hkey as [-> | [-> | [-> | [-> | [-> | []]]]]]; rewrite ?Hlt, ?Hgt; auto 6. }
  unfold diagnose.
  destruct (low_do THRESHOLDS r), (high_ammonia THRESHOLDS r),
    (low_water_level THRESHOLDS r), (high_temp THRESHOLDS r), (low_ph THRESHOLDS r);
    try done.
  by destruct Hraises as [? | [? | [? | [? | ?]]]].
Qed.

(** X8.  The handler drops, without touching the store, every message on
    another topic than the combined one (the per-sensor topics of the same
    subscription included), every payload that does not decode to an
    object, and every reading with a value that is not a number under one
    of the five threshold keys. *)
Theorem on_message_drops (msg : Message) (st : Store) :
  topic msg ≠ "aquaponics/sensors/all"
  ∨ decoded msg = None
  ∨ (∃ payload key v,
       decoded msg = Some payload ∧ key ∈ threshold_fields
       ∧ payload !! key = Some v ∧ as_number v = None) →
  on_message msg st = st.
Proof.
  intros Hdrop. unfold on_message.
  assert (enrich msg = None) as ->; [|done].
  unfold enrich.
  destruct Hdrop as [Htopic | [Hnone | (payload & key & v & Hsome & Hkey & Hv & Hnum)]].
  - by apply String.eqb_neq in Htopic as ->.
  - rewrite Hnone. by destruct (String.eqb _ _).
  - rewrite Hsome. destruct (String.eqb _ _); [|done]. cbn [mbind option_bind].
    by rewrite (diagnose_ill_typed payload key v).
Qed.

Lemma on_message_drops_witness :
  on_message per_sensor two_readings = two_readings
  ∧ on_message ill_typed two_readings = two_readings.
Proof.
  split.
  - apply (on_message_drops per_sensor two_readings). by left.
  - apply (on_message_drops ill_typed two_readings). right. right.
    exists (<["pH" := VStr "6.8"]> (<["reading_id" := int 7]> ∅)), "pH", (VStr "6.8").
    split_and!; [reflexivity | | reflexivity | reflexivity].
    unfold threshold_fields. set_solver.
Defined.

Lemma enrich_diagnosed (msg : Message) (payload : Reading) :
  enrich msg = Some payload →
  ∃ label, payload !! "diagnosis" = Some (VStr label)
           ∧ diagnose THRESHOLDS payload = Some label.
Proof.
  unfold enrich. destruct (String.eqb _ _); [|done].
  destruct (decoded msg) as [p|]; [cbn [mbind option_bind]|done].
  destruct (diagnose THRESHOLDS p) as [label|] eqn:Hlabel; [cbn [mbind option_bind]|done].
  intros [= <-]. exists label. split; [apply lookup_insert_eq|].
  rewrite diagnose_insert_other; [done|].
  unfold threshold_fields. rewrite !not_elem_of_cons.
  split_and!; done || apply not_elem_of_nil.
Qed.

Lemma accepted_diagnosed (msgs : list Message) :
  Forall (λ r, ∃ label, r !! "diagnosis" = Some (VStr label)
                        ∧ diagnose THRESHOLDS r = Some label) (accepted msgs).
Proof.
  apply Forall_forall. intros r Hr. unfold accepted in Hr.
  apply list_elem_of_omap in Hr as (msg & _ & Hmsg). by apply (enrich_diagnosed msg).
Qed.

(** The latest reading after a run of deliveries is the last accepted one,
    or the one before the run when none was accepted. *)
Lemma deliver_latest (msgs : list Message) (st : Store) :
  latest_reading (deliver msgs st) = default (latest_reading st) (last (accepted msgs)).
Proof.
  revert st. induction msgs as [|msg msgs IH]; intros st; [done|].
  change (deliver (msg :: msgs) st) with (deliver msgs (on_message msg st)).
  change (accepted (msg :: msgs))
    with (match enrich msg with
          | Some payload => payload :: accepted msgs
          | None => accepted msgs
          end).
  rewrite IH. unfold on_message. destruct (enrich msg) as [payload|]; [|done].
  cbn [store_reading append_reading set_latest latest_reading].
  destruct (accepted msgs) as [|r l] eqn:Hacc; [done|].
  rewrite last_cons_cons. destruct (last (r :: l)) eqn:Hlast; [done|].
  by apply last_None in Hlast.
Qed.

(** X9.  Every reading in the history, after any sequence of deliveries to
    the initial store, carries under "diagnosis" the label that [diagnose]
    returns on that stored reading; a diagnosis sent by the producer is
    overwritten. *)
Theorem stored_readings_are_diagnosed (msgs : list Message) :
  Forall (λ r, ∃ label, r !! "diagnosis" = Some (VStr label)
                        ∧ diagnose THRESHOLDS r = Some label)
    (items (sensor_readings (deliver msgs initial_store))).
Proof.
  rewrite deliver_items by (cbn; lia).
  apply Forall_drop. cbn [initial_store sensor_readings items app].
  apply accepted_diagnosed.
Qed.

(** X10.  After any sequence of deliveries to the initial store,
    [get_latest] returns the last accepted reading, or the "No data yet"
    message when none was accepted; [get_status] reports the number of
    accepted readings capped at 500, whether there is one, and the timestamp
    of the last one; [get_alerts] answers "no data" exactly when none was
    accepted. *)
Theorem served_state_after_deliveries (msgs : list Message) :
  let st := deliver msgs initial_store in
  get_latest st
    = match last (accepted msgs) with
      | Some r => inl r
      | None => inr "No data yet. Is the Raspberry Pi publishing?"
      end
  ∧ get_status st
    = (Nat.min (length (accepted msgs)) 500,
       negb (Nat.eqb (length (accepted msgs)) 0),
       r ← last (accepted msgs); r !! "timestamp")
  ∧ (get_alerts st = Some NoData ↔ accepted msgs = []).
Proof.
  intros st.
  assert (latest_reading st = default ∅ (last (accepted msgs))) as Hlatest
    by apply deliver_latest.
  assert (length (items (sensor_readings st)) = Nat.min (length (accepted msgs)) 500)
    as Hlen.
  { unfold st. rewrite deliver_items by (cbn; lia).
    cbn [initial_store sensor_readings items maxlen app]. rewrite length_drop.
    unfold MAX_READINGS. lia. }
  assert (truthy (latest_reading st) = negb (Nat.eqb (length (accepted msgs)) 0))
    as Htruthy.
  { rewrite Hlatest. destruct (last (accepted msgs)) as [r|] eqn:Hlast.
    - assert (r ∈ accepted msgs) as Hr
        by (apply last_Some in Hlast as [l ->]; set_solver).
      unfold accepted in Hr. apply list_elem_of_omap in Hr as (msg & _ & Hmsg).
      change (truthy r = negb (Nat.eqb (length (accepted msgs)) 0)).
      rewrite (enrich_truthy msg r Hmsg).
      apply last_Some in Hlast as [l ->]. rewrite length_app. cbn.
      by replace (length l + 1) with (S (length l)) by lia.
    - apply last_None in Hlast as ->. done. }
  split_and!.
  - unfold get_latest. rewrite Htruthy, Hlatest.
    destruct (last (accepted msgs)) as [r|] eqn:Hlast.
    + change (default ∅ (Some r)) with r.
      apply last_Some in Hlast as [l ->]. rewrite length_app. cbn.
      by replace (length l + 1) with (S (length l)) by lia.
    + by apply last_None in Hlast as ->.
  - unfold get_status. rewrite Htruthy, Hlen, Hlatest.
    destruct (accepted msgs) as [|r l _] using rev_ind; [done|].
    rewrite last_snoc, length_app. cbn [length].
    replace (length l + 1) with (S (length l)) by lia.
    change (S (length l) =? 0) with false.
    destruct (S (length l) `min` 500) as [|n] eqn:Hmin; [lia|done].
  - unfold get_alerts. rewrite Htruthy.
    destruct (accepted msgs) as [|r l]; cbn; [done|].
    split; [|done]. by destruct (evaluate_alerts _ _).
Qed.

(** ** The CSV log *)

Lemma deliver_logged_store (msgs : list (Message * bool)) (st : Store) file :
  (deliver_logged msgs (st, file)).1 = deliver msgs.*1 st.
Proof.
  revert st file. induction msgs as [|[msg ok] msgs IH]; intros st file; [done|].
  cbn [deliver_logged fmap list_fmap fst deliver]. unfold on_message_logged, on_message.
  destruct (enrich msg); apply IH.
Qed.

Lemma deliver_logged_rows (msgs : list (Message * bool)) (st : Store) rows :
  (deliver_logged msgs (st, Some rows)).2 = Some (rows ++ (csv_row <$> logged msgs)).
Proof.
  revert st rows. induction msgs as [|[msg ok] msgs IH]; intros st rows.
  - cbn. by rewrite app_nil_r.
  - cbn [deliver_logged]. unfold on_message_logged, logged. cbn [omap list_omap fst snd].
    fold (logged msgs).
    destruct ok, (enrich msg) as [payload|]; cbn [log_to_csv default fst snd];
      rewrite IH; try done.
    by rewrite fmap_cons, <- app_assoc.
Qed.

(** X11.  Logging never interferes with ingestion, and the log outlives the
    history.  Whatever writes fail, the store after the deliveries is the
    one the handler builds without logging.  Once [init_csv] has run, the
    file holds its previous rows (the header, if it was new) followed by one
    12-cell row per accepted reading whose write succeeded, in delivery
    order; nothing is evicted and a failed write loses that row only.
    [init_csv] on an existing file changes nothing. *)
Theorem csv_log_keeps_every_reading (msgs : list (Message * bool)) (st : Store)
    (file : option (list (list value))) :
  (deliver_logged msgs (st, init_csv file)).1 = deliver msgs.*1 st
  ∧ (deliver_logged msgs (st, init_csv file)).2
    = Some (default [csv_header] file ++ (csv_row <$> logged msgs))
  ∧ Forall (λ row, length row = 12) (csv_row <$> logged msgs)
  ∧ init_csv (init_csv file) = init_csv file.
Proof.
  split_and!.
  - apply deliver_logged_store.
  - destruct file as [rows|]; apply deliver_logged_rows.
  - apply Forall_fmap, Forall_true. intros r. done.
  - by destruct file.
Qed.

Example flaky_disk_loses_one_row :
  (deliver_logged flaky_deliveries (initial_store, init_csv None)).2
  = Some [csv_header; csv_row (default ∅ (enrich (sample_message 1)));
          csv_row (default ∅ (enrich (sample_message 3)))]
  ∧ length (items (sensor_readings
      (deliver_logged flaky_deliveries (initial_store, init_csv None)).1)) = 3.
Proof. split; reflexivity. Qed.

(** ** The lock, continued *)

(** X12.  No reachable state is stuck on the lock: from every reachable
    state at most three steps lead to a state where the lock is free and the
    ingestion thread is between messages, and when the ingestion thread was
    already between messages those steps leave the store as it was. *)
Theorem lock_is_released_within_three_steps (s : System) :
  reachable s →
  ∃ s', bsteps moves 3 s s' ∧ lock s' = None ∧ pc s' = Idle
        ∧ (pc s = Idle → store s' = store s).
Proof.
  intros Hreach. destruct (reachable_lock_invariant s Hreach) as (_ & _ & Hpc).
  destruct (pc s) as [|payload|payload|payload] eqn:Hat.
  - destruct Hpc as [Hlock _]. destruct (lock s) as [[|n]|] eqn:Hheld; [done| |].
    + eexists. split.
      { eapply bsteps_l; [|apply bsteps_refl].
        exists Silent. by apply (serve_release s n). }
      by split_and!.
    + exists s. split; [apply bsteps_refl|by split_and!].
  - eexists. split.
    { eapply bsteps_l; [exists Silent; by apply (ingest_set_latest s payload)|].
      eapply bsteps_l; [exists Silent; by apply ingest_append|].
      eapply bsteps_l; [exists (Ingested payload); by apply ingest_release|].
      apply bsteps_refl. }
    by split_and!.
  - eexists. split.
    { eapply (bsteps_weaken 2 3); [lia|].
      eapply bsteps_l; [exists Silent; by apply (ingest_append s payload)|].
      eapply bsteps_l; [exists (Ingested payload); by apply ingest_release|].
      apply bsteps_refl. }
    by split_and!.
  - eexists. split.
    { eapply (bsteps_weaken 1 3); [lia|].
      eapply bsteps_l; [exists (Ingested payload); by apply (ingest_release s payload)|].
      apply bsteps_refl. }
    by split_and!.
Qed.

Lemma lock_is_released_within_three_steps_witness :
  ∃ s', bsteps moves 3 serving s' ∧ lock s' = None ∧ pc s' = Idle
        ∧ (pc serving = Idle → store s' = store serving).
Proof.
  apply (lock_is_released_within_three_steps serving).
  apply (reachable_step initial_system Silent); [apply reachable_initial|].
  by apply (serve_acquire initial_system 0).
Defined.

(** ** Control endpoints *)

Lemma on_message_simulate_command (enable : bool) (s : Simulator.Sim) :
  Simulator.on_message (simulate_failure_command enable) s
  = Simulator.set_failure_simulation enable s.
Proof. reflexivity. Qed.

(** X13.  The three control endpoints and the simulator agree on topics and
    payload keys: when the client is connected each endpoint reports success
    and publishes one message, and the simulator's handler turns that
    message into the matching setter call with the state (or flag) the
    endpoint was given; when it is not connected the endpoint reports
    failure and nothing reaches the simulator. *)
Theorem control_endpoints_drive_simulator
    (connected : bool) (state : string) (enable : bool) (s : Simulator.Sim) :
  let received (out : bool * option Message) : Simulator.Sim :=
    from_option (λ msg, Simulator.on_message msg s) s out.2 in
  (control_pump connected state).1 = connected
  ∧ (control_light connected state).1 = connected
  ∧ (simulate_failure connected enable).1 = connected
  ∧ received (control_pump connected state)
    = (if connected then Simulator.set_pump (VStr state) s else s)
  ∧ received (control_light connected state)
    = (if connected then Simulator.set_light (VStr state) s else s)
  ∧ received (simulate_failure connected enable)
    = (if connected then Simulator.set_failure_simulation enable s else s).
Proof.
  intros received. unfold received, control_pump, control_light, simulate_failure,
    publish_if.
  destruct connected; cbn [fst snd from_option]; split_and!;
    first [ apply on_message_pump_command | apply on_message_light_command
          | apply on_message_simulate_command | reflexivity ].
Qed.

(** * Further properties of the simulator *)

Section MoreCommands.
Import Simulator.
Implicit Types (s : Sim) (state : value).

Lemma is_str_true known state : is_str known state = true ↔ state = VStr known.
Proof.
  destruct state as [| | |s'|]; cbn; try (split; [discriminate|discriminate]).
  rewrite String.eqb_eq. split; [by intros ->|by intros [= ->]].
Qed.

(** X14.  Commands for different devices do not interfere: a pump command
    and a light command, whatever their states, give the same device state
    in either order, and each commutes with setting the failure flag; of two
    failure settings the later one wins. *)
Theorem commands_for_different_devices_commute s (pump_state light_state : value)
    (enable enable' : bool) :
  set_pump pump_state (set_light light_state s)
    = set_light light_state (set_pump pump_state s)
  ∧ set_pump pump_state (set_failure_simulation enable s)
    = set_failure_simulation enable (set_pump pump_state s)
  ∧ set_light light_state (set_failure_simulation enable s)
    = set_failure_simulation enable (set_light light_state s)
  ∧ set_failure_simulation enable' (set_failure_simulation enable s)
    = set_failure_simulation enable' s.
Proof.
  unfold set_pump, set_light, set_failure_simulation.
  destruct (is_str "toggle" pump_state), (is_str "on" pump_state),
    (is_str "off" pump_state), (is_str "toggle" light_state),
    (is_str "on" light_state), (is_str "off" light_state),
    (is_str "auto" light_state); by split_and!.
Qed.

(** X15.  The light's two modes.  "auto" clears the manual flag and keeps
    [light_on]; every other light command, recognized or not, sets the
    manual flag; two toggles give back the [light_on] they started from;
    "auto" after a command keeps the [light_on] that command left; no light
    command touches the pump, the failure flag or the counters. *)
Theorem light_modes s state :
  manual_light (set_light (VStr "auto") s) = false
  ∧ light_on (set_light (VStr "auto") s) = light_on s
  ∧ (state ≠ VStr "auto" → manual_light (set_light state s) = true)
  ∧ light_on (set_light (VStr "toggle") (set_light (VStr "toggle") s)) = light_on s
  ∧ light_on (set_light (VStr "auto") (set_light state s)) = light_on (set_light state s)
  ∧ set_light state (set_light (VStr "auto") s) = set_light state s
  ∧ pump_on (set_light state s) = pump_on s
  ∧ pump_failure (set_light state s) = pump_failure s
  ∧ reading_count (set_light state s) = reading_count s.
Proof.
  split_and!; try reflexivity.
  all: try (intros Hauto; unfold set_light;
            destruct (is_str "auto" state) eqn:Hstr; [by apply is_str_true in Hstr|];
            by destruct (is_str "toggle" state), (is_str "on" state),
                 (is_str "off" state)).
  all: try by destruct s as [? ? ? ? [] ? ?].
  all: unfold set_light;
    by destruct (is_str "toggle" state), (is_str "on" state), (is_str "off" state),
      (is_str "auto" state).
Qed.

(** X16.  What the simulator's handler does with incomplete or stray
    messages.  A pump or light payload without "state" toggles; a simulate
    payload without "enable" switches the failure on; a present "enable" is
    taken by its truth value, so the string "false" switches the failure on;
    a payload that is not an object, or a message on any other topic,
    changes nothing. *)
Theorem control_message_defaults s (payload : Reading) (other : string) :
  (payload !! "state" = None →
   on_message {| topic := "aquaponics/control/pump"; decoded := Some payload |} s
     = set_pump (VStr "toggle") s
   ∧ on_message {| topic := "aquaponics/control/light"; decoded := Some payload |} s
     = set_light (VStr "toggle") s)
  ∧ (payload !! "enable" = None →
     on_message {| topic := "aquaponics/control/simulate"; decoded := Some payload |} s
       = set_failure_simulation true s)
  ∧ (∀ v, payload !! "enable" = Some v →
     pump_failure
       (on_message {| topic := "aquaponics/control/simulate"; decoded := Some payload |} s)
       = truth v)
  ∧ truth (VStr "false") = true
  ∧ on_message {| topic := other; decoded := None |} s = s
  ∧ (other ∉ ["aquaponics/control/pump"; "aquaponics/control/light";
              "aquaponics/control/simulate"] →
     on_message {| topic := other; decoded := Some payload |} s = s).
Proof.
  split_and!.
  - intros Hstate. unfold on_message. cbn [decoded topic String.eqb Ascii.eqb Bool.eqb].
    by rewrite !(dict_get_missing payload "state" _ Hstate).
  - intros Henable. unfold on_message. cbn [decoded topic String.eqb Ascii.eqb Bool.eqb].
    by rewrite (dict_get_missing payload "enable" _ Henable).
  - intros v Hv. unfold on_message. cbn [decoded topic String.eqb Ascii.eqb Bool.eqb].
    by rewrite (dict_get_present payload "enable" _ v Hv).
  - reflexivity.
  - reflexivity.
  - rewrite !not_elem_of_cons. intros (Hpump & Hlight & Hsim & _).
    unfold on_message. cbn [decoded topic].
    apply String.eqb_neq in Hpump, Hlight, Hsim. by rewrite Hpump, Hlight, Hsim.
Qed.

End MoreCommands.

(** ** Generated readings *)

Lemma round_half_even_nonneg (x : Q) : (0 <= x)%Q → (0 ≤ round_half_even x)%Z.
Proof.
  intros Hx. pose proof (Qfloor_resp_le 0 x Hx) as Hfloor.
  change (Qfloor 0) with 0%Z in Hfloor. unfold round_half_even.
  destruct (x - inject_Z (Qfloor x) ?= 1 # 2)%Q; [destruct (Z.even _)| |]; lia.
Qed.

Lemma py_round_nonneg (x : Q) n : (0 <= x)%Q → (0 <= py_round x n)%Q.
Proof.
  intros Hx. pose proof (scale_pos n) as Hscale. unfold py_round, Qdiv.
  apply Qmult_le_0_compat.
  - change 0%Q with (inject_Z 0). rewrite <- Zle_Qle.
    apply round_half_even_nonneg. apply Qmult_le_0_compat; lra.
  - apply Qinv_le_0_compat. lra.
Qed.

Lemma automatic_light_status (l : Q) :
  ((if Qltb 0 l then "ON" else "OFF") = "ON" ↔ (0 < py_max0 l)%Q)
  ∧ ((if Qltb 0 l then "ON" else "OFF") = "ON"
     ∨ (if Qltb 0 l then "ON" else "OFF") = "OFF").
Proof.
  unfold py_max0. destruct (Qltb 0 l) eqn:Hlit.
  - apply Qltb_lt in Hlit. split; [by split|by left].
  - split; [|by right]. split; [done|]. intros Hpos. lra.
Qed.

Section MoreGeneration.
Import Simulator.
Context (E : Env).

(** Runs the monadic code of [get_readings] on a world given by its
    components, down to the fields of the reading. *)
Ltac run_get_readings :=
  cbv [get_readings daily_cycle gauss get_hour_of_day now_isoformat update self
       apply_to_sim mbind mret M_bind M_ret sim draws ticks fst snd negb
       reading_count ph_drift ec_drift pump_on light_on pump_failure manual_light
       set_failure_simulation with_pump_failure set_pump with_pump_on is_str
       String.eqb Ascii.eqb Bool.eqb
       timestamp water_temp_C air_temp_C pH ammonia_mgL dissolved_oxygen_mgL ec_uScm
       water_level_percent humidity_percent light_lux pump_status light_status
       reading_id].

(** X17.  Every generated reading is physically plausible in sign and has
    the precision of its field: ammonia, dissolved oxygen, water level and
    illuminance are never negative; temperatures, pH and dissolved oxygen
    have two decimals, ammonia three, conductivity, water level and humidity
    one, illuminance none. *)
Theorem reading_ranges_and_precision (w : World) :
  let r := fst (get_readings E w) in
  (0 <= ammonia_mgL r)%Q ∧ (0 <= dissolved_oxygen_mgL r)%Q
  ∧ (0 <= water_level_percent r)%Q ∧ (0 <= light_lux r)%Q
  ∧ on_grid 2 (water_temp_C r) ∧ on_grid 2 (air_temp_C r) ∧ on_grid 2 (pH r)
  ∧ on_grid 3 (ammonia_mgL r) ∧ on_grid 2 (dissolved_oxygen_mgL r)
  ∧ on_grid 1 (ec_uScm r) ∧ on_grid 1 (water_level_percent r)
  ∧ on_grid 1 (humidity_percent r) ∧ on_grid 0 (light_lux r).
Proof.
  intros r. subst r.
  destruct w as [[count ph ec pump light failure manual] d t].
  destruct failure, pump; run_get_readings; split_and!;
    first [ apply py_round_grid | apply on_grid_max0, py_round_grid
          | apply py_round_nonneg, py_max0_nonneg | apply py_max0_nonneg ].
Qed.

Lemma get_readings_pump_status (w : World) :
  pump_status (fst (get_readings E w))
  = if pump_failure (sim w) then "FAILURE" else if pump_on (sim w) then "ON" else "OFF".
Proof.
  destruct w as [[count ph ec pump light failure manual] d t].
  by destruct failure, pump; run_get_readings.
Qed.

(** X18.  The pump status reported follows the device state, a simulated
    failure taking precedence over the switch: "FAILURE" when the failure
    flag is set, else "ON" or "OFF" as the pump is.  With no failure, a tick
    with the pump switched off reports a water level and a dissolved oxygen
    that are never above those of the same tick with the pump on, and
    strictly below them exactly when those are positive. *)
Theorem pump_status_and_off_penalty (w : World) :
  pump_failure (sim w) = false →
  let off := fst (get_readings E (apply_to_sim (set_pump (VStr "off")) w)) in
  let on := fst (get_readings E (apply_to_sim (set_pump (VStr "on")) w)) in
  pump_status (fst (get_readings E w))
    = (if pump_on (sim w) then "ON" else "OFF")
  ∧ pump_status (fst (get_readings E (apply_to_sim (set_failure_simulation true) w)))
    = "FAILURE"
  ∧ pump_status off = "OFF" ∧ pump_status on = "ON"
  ∧ (water_level_percent off <= water_level_percent on)%Q
  ∧ (dissolved_oxygen_mgL off <= dissolved_oxygen_mgL on)%Q
  ∧ ((water_level_percent off < water_level_percent on)%Q
     ↔ (0 < water_level_percent on)%Q)
  ∧ ((dissolved_oxygen_mgL off < dissolved_oxygen_mgL on)%Q
     ↔ (0 < dissolved_oxygen_mgL on)%Q).
Proof.
  intros Hhealthy off on. subst off on.
  split; [by rewrite get_readings_pump_status, Hhealthy|].
  split; [by rewrite get_readings_pump_status|].
  destruct w as [[count ph ec pump light failure manual] d t].
  cbn in Hhealthy. subst failure.
  run_get_readings.
  match goal with
  | |- context [py_round (py_max0 (py_round ?a 1 - 5)) 1] =>
      set (level := py_round a 1);
      assert (on_grid 1 level) as Hlevel by apply py_round_grid
  end.
  match goal with
  | |- context [py_round (py_max0 (py_round ?a 2 - 1)) 2] =>
      set (oxygen := py_round a 2);
      assert (on_grid 2 oxygen) as Hoxygen by apply py_round_grid
  end.
  destruct (clamp_lower 1 (level - 5) level) as (? & ? & ?);
    [by apply on_grid_minus, (on_grid_int 1 5) | done | lra |].
  destruct (clamp_lower 2 (oxygen - 1) oxygen) as (? & ? & ?);
    [by apply on_grid_minus, (on_grid_int 2 1) | done | lra |].
  by split_and!.
Qed.

(** X19.  The light status reported: in manual mode it is "ON" exactly when
    the light is switched on, whatever the illuminance drawn; in automatic
    mode it is "ON" exactly when the reported illuminance is positive.  It
    is never anything but "ON" or "OFF". *)
Theorem light_status_rule (w : World) :
  let r := fst (get_readings E w) in
  (light_status r = "ON"
   ↔ if manual_light (sim w) then light_on (sim w) = true else (0 < light_lux r)%Q)
  ∧ (light_status r = "ON" ∨ light_status r = "OFF").
Proof.
  intros r. subst r.
  destruct w as [[count ph ec pump light failure manual] d t].
  destruct failure, pump, manual, light; run_get_readings;
    first [ apply automatic_light_status
          | split; [by split | first [by left | by right]] ].
Qed.

End MoreGeneration.

Lemma pump_status_and_off_penalty_witness :
  Simulator.pump_status (fst (Simulator.get_readings calm fresh)) = "ON"
  ∧ (Simulator.water_level_percent
       (fst (Simulator.get_readings calm
               (Simulator.apply_to_sim (Simulator.set_pump (VStr "off")) fresh)))
     < Simulator.water_level_percent
         (fst (Simulator.get_readings calm
                 (Simulator.apply_to_sim (Simulator.set_pump (VStr "on")) fresh))))%Q.
Proof.
  destruct (pump_status_and_off_penalty calm fresh eq_refl)
    as (Hstatus & _ & _ & _ & _ & _ & Hlevel & _).
  split; [exact Hstatus | apply Hlevel; reflexivity].
Defined.

(** ** A lifetime of ticks and commands *)

Section Lifetime.
Import Simulator.
Context (E : Env).

Lemma get_readings_counters (w : World) :
  draws (snd (get_readings E w)) = 9 + draws w
  ∧ ticks (snd (get_readings E w)) = 6 + ticks w.
Proof.
  destruct w as [[count ph ec pump light failure manual] d t].
  by destruct failure, pump.
Qed.

(** X20.  Over any sequence of control messages and ticks, the simulator
    produces one reading per tick and its reading counter grows by the
    number of ticks, a control message leaving it alone; each tick consumes
    nine random draws and reads the clock six times, a control message
    none. *)
Theorem lifetime_accounting (acts : list action) (w : World) :
  let n := ticks_in acts in
  let final := snd (run E acts w) in
  length (fst (run E acts w)) = n
  ∧ reading_count (sim final) = (reading_count (sim w) + Z.of_nat n)%Z
  ∧ draws final = draws w + 9 * n
  ∧ ticks final = ticks w + 6 * n.
Proof.
  revert w. induction acts as [|[msg|] acts IH]; intros w; cbn [run ticks_in].
  - cbn. split_and!; lia.
  - destruct (IH (apply_to_sim (on_message msg) w)) as (Hlen & Hcount & Hd & Ht).
    cbn [apply_to_sim sim draws ticks] in Hcount, Hd, Ht.
    rewrite on_message_reading_count in Hcount.
    by split_and!.
  - destruct (get_readings_counters w) as [Hdraws Hticks].
    destruct (get_readings_sim E w) as (ph & ec & Hsim).
    destruct (get_readings E w) as [r w'] eqn:Hget. cbn [snd] in Hdraws, Hticks, Hsim.
    destruct (IH w') as (Hlen & Hcount & Hd & Ht).
    destruct (run E acts w') as [rs w''] eqn:Hrun. cbn [fst snd] in *.
    rewrite Hsim in Hcount. cbn [reading_count] in Hcount.
    split_and!; cbn [length]; lia.
Qed.

End Lifetime.

(** * From a tick of the simulator to the server's answers *)

Lemma diagnose_attach_label (T : Thresholds) (r : Reading) (label : string) :
  diagnose T (<["diagnosis" := VStr label]> r) = diagnose T r.
Proof.
  apply diagnose_insert_other.
  unfold threshold_fields. rewrite !not_elem_of_cons.
  split_and!; done || apply not_elem_of_nil.
Qed.

Section EndToEnd.
Import Simulator Pipeline.
Context (E : Env).

(** Of the ten messages of a tick the handler keeps the combined one, with
    the diagnosis of its values attached. *)
Lemma accepted_publish_reading (r : GenReading) :
  accepted (publish_reading r)
  = [<["diagnosis" :=
        VStr (diagnose_label (Qltb (dissolved_oxygen_mgL r) 5)
                (Qltb (1 # 2) (ammonia_mgL r)) (Qltb (water_level_percent r) 80)
                (Qltb 26 (water_temp_C r)) (Qltb (pH r) 6))]> (to_payload r)].
Proof. reflexivity. Qed.

Lemma publish_tick_eq (w : World) :
  publish_tick E w = (publish_reading (fst (get_readings E w)), snd (get_readings E w)).
Proof. unfold publish_tick. by destruct (get_readings E w). Qed.

(** X21.  One pass of the simulator's publishing loop sends ten messages,
    nine per-sensor ones and the combined one, and the server's handler stores
    exactly one reading for them: the generated reading, never dropped,
    carrying the simulator's reading id, its pump status and a diagnosis.  It
    becomes the latest reading and the newest entry of the history. *)
Theorem published_tick_is_stored_once (w : World) (st : Store) :
  0 < maxlen (sensor_readings st) →
  length (items (sensor_readings st)) ≤ maxlen (sensor_readings st) →
  let msgs := (publish_tick E w).1 in
  let st' := deliver msgs st in
  length msgs = 10
  ∧ length (accepted msgs) = 1
  ∧ last (items (sensor_readings st')) = Some (latest_reading st')
  ∧ latest_reading st' !! "reading_id" = Some (int (reading_count (sim w) + 1))
  ∧ latest_reading st' !! "pump_status"
    = Some (VStr (if pump_failure (sim w) then "FAILURE"
                  else if pump_on (sim w) then "ON" else "OFF"))
  ∧ (∃ label, latest_reading st' !! "diagnosis" = Some (VStr label)
              ∧ diagnose THRESHOLDS (latest_reading st') = Some label).
Proof.
  intros Hpos Hbound msgs st'. subst msgs st'. rewrite publish_tick_eq. cbn [fst].
  set (r := fst (get_readings E w)).
  assert (latest_reading (deliver (publish_reading r) st)
          = default (latest_reading st) (last (accepted (publish_reading r)))) as Hlatest
    by apply deliver_latest.
  rewrite accepted_publish_reading in Hlatest. cbn [last default from_option id] in Hlatest.
  split_and!.
  - reflexivity.
  - by rewrite accepted_publish_reading.
  - rewrite deliver_items, accepted_publish_reading, Hlatest by done.
    rewrite last_lookup, length_drop, lookup_drop, length_app. cbn [length].
    set (n := length (items (sensor_readings st))) in *.
    set (C := maxlen (sensor_readings st)) in *.
    replace (n + 1 - C + Init.Nat.pred (n + 1 - (n + 1 - C))) with (n + 0) by lia.
    by rewrite lookup_app_r, Nat.add_0_r, Nat.sub_diag by lia.
  - rewrite Hlatest.
    change (Some (int (reading_id r)) = Some (int (reading_count (sim w) + 1))).
    unfold r. by rewrite get_readings_id.
  - rewrite Hlatest.
    change (Some (VStr (pump_status r)) = Some (VStr (if pump_failure (sim w) then "FAILURE"
                  else if pump_on (sim w) then "ON" else "OFF"))).
    unfold r. by rewrite get_readings_pump_status.
  - rewrite Hlatest. eexists. split; [apply lookup_insert_eq|].
    rewrite diagnose_attach_label. reflexivity.
Qed.

Lemma evaluate_alerts_published (r : GenReading) (label : string) :
  ∃ found,
    evaluate_alerts THRESHOLDS (<["diagnosis" := VStr label]> (to_payload r))
      = Some (found ++ if String.eqb (pump_status r) "FAILURE" then [pump_alert] else [])
    ∧ "pump" ∉ sensor <$> found.
Proof.
  destruct (evaluate_alerts_shape (<["diagnosis" := VStr label]> (to_payload r))
              (Qltb (dissolved_oxygen_mgL r) 5) (Qltb (1 # 2) (ammonia_mgL r))
              (Qltb (water_level_percent r) 80) (Qltb 26 (water_temp_C r))
              (Qltb (pH r) 6)) as (found & Halerts & Hfound); try reflexivity.
  exists found. split; [exact Halerts|]. rewrite Hfound. clear.
  destruct (Qltb _ _), (Qltb _ _), (Qltb _ _), (Qltb _ _), (Qltb _ _);
    cbn; rewrite ?not_elem_of_cons; split_and?; done || apply not_elem_of_nil.
Qed.

(** X22.  A simulated failure is seen end to end.  After one published tick
    has been delivered to the server, [get_alerts] answers with an alert list
    (never "no data", never an exception), whose count is its length, and
    the pump alert is in that list exactly when the failure simulation was
    enabled on the simulator; the diagnosis served is the one stored with
    the reading. *)
Theorem simulated_failure_is_alerted (enable : bool) (w : World) (st : Store) :
  let msgs := (publish_tick E (apply_to_sim (set_failure_simulation enable) w)).1 in
  let st' := deliver msgs st in
  ∃ alerts,
    get_alerts st'
      = Some (Alerts alerts (length alerts)
                (default (VStr "Unknown") (latest_reading st' !! "diagnosis")))
    ∧ (pump_alert ∈ alerts ↔ enable = true).
Proof.
  intros msgs st'. subst msgs st'. rewrite publish_tick_eq. cbn [fst].
  set (w' := apply_to_sim (set_failure_simulation enable) w).
  assert (pump_status (fst (get_readings E w')) = if enable then "FAILURE"
            else if pump_on (sim w) then "ON" else "OFF") as Hstatus
    by (rewrite get_readings_pump_status; by destruct w as [[] ? ?]).
  set (r := fst (get_readings E w')) in *. clearbody r. clear w'.
  assert (latest_reading (deliver (publish_reading r) st)
          = default (latest_reading st) (last (accepted (publish_reading r)))) as Hlatest
    by apply deliver_latest.
  rewrite accepted_publish_reading in Hlatest. cbn [last default from_option id] in Hlatest.
  unfold get_alerts. rewrite Hlatest.
  match goal with |- context [<["diagnosis" := VStr ?l]> (to_payload r)] =>
    set (label := l) end.
  destruct (evaluate_alerts_published r label) as (found & Halerts & Hfound).
  assert (truthy (<["diagnosis" := VStr label]> (to_payload r)) = true) as ->.
  { unfold truthy. apply negb_true_iff, Nat.eqb_neq.
    rewrite map_size_empty_iff. apply insert_non_empty. }
  rewrite Halerts. cbn [mbind option_bind]. eexists. split; [reflexivity|].
  rewrite Hstatus. clear Halerts Hlatest Hstatus.
  destruct enable; [|destruct (pump_on (sim w))];
    cbn [String.eqb Ascii.eqb Bool.eqb]; rewrite ?app_nil_r.
  - split; [done|]. intros _. apply elem_of_app. right. by apply list_elem_of_singleton.
  - split; [|done]. intros Hin. destruct Hfound.
    by apply (list_elem_of_fmap_2 sensor) in Hin.
  - split; [|done]. intros Hin. destruct Hfound.
    by apply (list_elem_of_fmap_2 sensor) in Hin.
Qed.

End EndToEnd.

Lemma published_tick_is_stored_once_witness :
  length (Pipeline.publish_tick calm fresh).1 = 10
  ∧ latest_reading (deliver (Pipeline.publish_tick calm fresh).1 initial_store)
      !! "reading_id" = Some (int 1).
Proof.
  destruct (published_tick_is_stored_once calm fresh initial_store)
    as (Hlen & _ & _ & Hid & _);
    [unfold initial_store, MAX_READINGS; cbn; lia
    |unfold initial_store, MAX_READINGS; cbn; lia |].
  split; [exact Hlen | exact Hid].
Defined.

(** * The history bound under interleaving *)

Lemma reachable_maxlen (s : System) :
  reachable s → maxlen (sensor_readings (store s)) = MAX_READINGS.
Proof.
  induction 1 as [|s e s' _ IH Hstep]; [done|]. by destruct Hstep.
Qed.

(** X23.  In every reachable state of the interleaving model, the torn states
    inside the ingestion thread's critical section included, the history
    holds at most 500 readings and its capacity is still 500; and while a
    request handler holds the lock no step of any thread changes the
    store. *)
Theorem reachable_history_is_bounded (s : System) :
  reachable s →
  maxlen (sensor_readings (store s)) = 500
  ∧ length (items (sensor_readings (store s))) ≤ 500
  ∧ ∀ n e s', lock s = Some (Serve n) → step s e s' → store s' = store s.
Proof.
  intros Hreach. pose proof (reachable_maxlen s Hreach) as Hmax.
  destruct (reachable_lock_invariant s Hreach) as (_ & Hbound & _).
  rewrite Hmax in Hbound. split_and!; [done | done |].
  intros n e s' Hheld Hstep. by apply (store_stable_while_serving s e s' n).
Qed.

Lemma reachable_history_is_bounded_witness :
  maxlen (sensor_readings (store ingest_latest_set)) = 500
  ∧ length (items (sensor_readings (store ingest_latest_set))) ≤ 500
  ∧ ∀ n e s', lock ingest_latest_set = Some (Serve n) →
              step ingest_latest_set e s' → store s' = store ingest_latest_set.
Proof.
  apply (reachable_history_is_bounded ingest_latest_set).
  apply (reachable_step ingest_locked Silent); [|by apply ingest_set_latest].
  apply (reachable_step initial_system Silent); [apply reachable_initial|].
  by apply (ingest_acquire initial_system (sample_message 1) first_payload).
Defined.
